(** * cv.py: extracting skills from a CV with a text-generation API

    A shallow embedding of [cv.py] and of the parts of the Python runtime
    it calls ([str], [pathlib], the UTF-8 codec, text-mode reading, [json],
    [os.environ], [dotenv], the PDF reader and the API client), followed by
    the properties of its functions.

    Python values are modelled as follows.
    - [str] is a list of Unicode code points ([pystr], a [list Z]);
      [bytes] is a list of integers in [0, 256).
    - Raising is explicit: a call yields an [outcome], either [Return v] or
      [Raise e].
    - Everything the program reads from outside is a field of [World]: the
      file system, the installed PDF reader, the process environment, the
      parsed [.env] file and the remote API. *)

From Stdlib Require Import ZArith List String Ascii Lia Bool.
From Stdlib Require DecimalFacts DecimalPos DecimalZ.
From stdpp Require Import base option list gmap.

Local Open Scope Z_scope.
Local Open Scope list_scope.

(** ** Python strings *)

Abbreviation pystr := (list Z).
Abbreviation pybytes := (list Z).

(** An ASCII literal as a Python [str]. *)
Definition py (s : string) : pystr :=
  map (fun a => Z.of_N (N_of_ascii a)) (list_ascii_of_string s).

Fixpoint pystr_eqb (a b : pystr) : bool :=
  match a, b with
  | [], [] => true
  | x :: a', y :: b' => (x =? y) && pystr_eqb a' b'
  | _, _ => false
  end.

(** [s.startswith(p)] *)
Fixpoint startswith (p s : pystr) : bool :=
  match p, s with
  | [], _ => true
  | x :: p', y :: s' => (x =? y) && startswith p' s'
  | _ :: _, [] => false
  end.

(** [p in s] for strings: [p] occurs somewhere in [s]. *)
Fixpoint contains (p s : pystr) : bool :=
  startswith p s ||
  match s with
  | [] => false
  | _ :: s' => contains p s'
  end.

(** [sep.join(l)] *)
Fixpoint join (sep : pystr) (l : list pystr) : pystr :=
  match l with
  | [] => []
  | [x] => x
  | x :: l' => x ++ sep ++ join sep l'
  end.

(** [s.rfind(c)] for a one-character [c]: the highest index holding [c],
    or [-1]. [rfind_from] scans left to right and remembers the last hit. *)
Fixpoint rfind_from (c : Z) (s : pystr) (i found : Z) : Z :=
  match s with
  | [] => found
  | x :: s' => rfind_from c s' (i + 1) (if x =? c then i else found)
  end.

Definition rfind (c : Z) (s : pystr) : Z := rfind_from c s 0 (-1).

(** [s.lower()]. Only the ASCII case pairs are modelled. A code point
    outside ASCII lowers to text that holds a letter other than
    [.], [t], [x], [p], [d], [f], so comparing the lowered suffix with
    [.txt] or [.pdf] gives the same answer as in Python. *)
Definition lower_char (c : Z) : Z :=
  if (65 <=? c) && (c <=? 90) then c + 32 else c.

Definition lower (s : pystr) : pystr := map lower_char s.

(** ** Exceptions and outcomes *)

Inductive exn : Type :=
| CVExtractorError (msg : pystr)   (* class CVExtractorError(RuntimeError) *)
| FileNotFoundError
| IsADirectoryError
| UnicodeDecodeError
| ImportError
| IndexError
| AttributeError
| JSONDecodeError
| RecursionError
| LibraryError (name : pystr).     (* any other error of a collaborator *)

Inductive outcome (A : Type) : Type :=
| Return (a : A)
| Raise (e : exn).
Arguments Return {A} a.
Arguments Raise {A} e.

#[global] Instance outcome_ret : MRet outcome := fun A a => Return a.
#[global] Instance outcome_bind : MBind outcome := fun A B f m =>
  match m with
  | Return a => f a
  | Raise e => Raise e
  end.

(** [try: body except ImportError: handler] *)
Definition except_ImportError {A} (body handler : outcome A) : outcome A :=
  match body with
  | Raise ImportError => handler
  | other => other
  end.

(** [try: body except json.JSONDecodeError: handler] *)
Definition except_JSONDecodeError {A} (body handler : outcome A) : outcome A :=
  match body with
  | Raise JSONDecodeError => handler
  | other => other
  end.

(** ** The UTF-8 codec and text-mode reading *)

Definition is_continuation (b : Z) : bool := (0x80 <=? b) && (b <=? 0xBF).

(** [bytes.decode("utf-8")], strict: [None] stands for
    [UnicodeDecodeError]. Shortest forms only, no surrogates, nothing above
    U+10FFFF. The arithmetic is the decoder's own,
    [(ch << 6) + ch2 - ((0xC0 << 6) + 0x80)] and so on, written with
    multiplications. *)
Fixpoint utf8_decode (bs : pybytes) : option pystr :=
  match bs with
  | [] => Some []
  | b1 :: r1 =>
    if (0 <=? b1) && (b1 <=? 0x7F) then
      cons b1 <$> utf8_decode r1
    else if (0xC2 <=? b1) && (b1 <=? 0xDF) then
      match r1 with
      | b2 :: r2 =>
        if is_continuation b2 then
          cons (b1 * 64 + b2 - (0xC0 * 64 + 0x80)) <$> utf8_decode r2
        else None
      | _ => None
      end
    else if (0xE0 <=? b1) && (b1 <=? 0xEF) then
      match r1 with
      | b2 :: b3 :: r3 =>
        if is_continuation b2 && is_continuation b3
           && negb ((b1 =? 0xE0) && (b2 <? 0xA0))
           && negb ((b1 =? 0xED) && (0x9F <? b2)) then
          cons (b1 * 4096 + b2 * 64 + b3 - (0xE0 * 4096 + 0x80 * 64 + 0x80))
            <$> utf8_decode r3
        else None
      | _ => None
      end
    else if (0xF0 <=? b1) && (b1 <=? 0xF4) then
      match r1 with
      | b2 :: b3 :: b4 :: r4 =>
        if is_continuation b2 && is_continuation b3 && is_continuation b4
           && negb ((b1 =? 0xF0) && (b2 <? 0x90))
           && negb ((b1 =? 0xF4) && (0x8F <? b2)) then
          cons (b1 * 262144 + b2 * 4096 + b3 * 64 + b4
                - (0xF0 * 262144 + 0x80 * 4096 + 0x80 * 64 + 0x80))
            <$> utf8_decode r4
        else None
      | _ => None
      end
    else None
  end.

(** One code point of [str.encode("utf-8")]; [None] stands for
    [UnicodeEncodeError] (a surrogate, or not a code point). *)
Definition utf8_encode_char (c : Z) : option pybytes :=
  if (0 <=? c) && (c <? 0x80) then Some [c]
  else if (0x80 <=? c) && (c <? 0x800) then
    Some [0xC0 + c / 64; 0x80 + c mod 64]
  else if (0x800 <=? c) && (c <? 0x10000) then
    if (0xD800 <=? c) && (c <=? 0xDFFF) then None
    else Some [0xE0 + c / 4096; 0x80 + (c / 64) mod 64; 0x80 + c mod 64]
  else if (0x10000 <=? c) && (c <=? 0x10FFFF) then
    Some [0xF0 + c / 262144; 0x80 + (c / 4096) mod 64;
          0x80 + (c / 64) mod 64; 0x80 + c mod 64]
  else None.

Fixpoint utf8_encode (s : pystr) : option pybytes :=
  match s with
  | [] => Some []
  | c :: s' =>
    match utf8_encode_char c, utf8_encode s' with
    | Some bs, Some bs' => Some (bs ++ bs')
    | _, _ => None
    end
  end.

(** Universal newlines, as a text-mode [read()] applies them when [newline]
    is left at its default: CR LF and a lone CR both become LF. *)
Fixpoint translate_newlines (s : pystr) : pystr :=
  match s with
  | [] => []
  | c :: s' =>
    if c =? 13 then
      match s' with
      | c' :: s'' => if c' =? 10 then 10 :: translate_newlines s''
                     else 10 :: translate_newlines s'
      | [] => [10]
      end
    else c :: translate_newlines s'
  end.

(** ** pathlib and the file system *)

(** A [Path] as pathlib holds it after parsing: the root (empty for a
    relative path) and the components below it. *)
Record Path : Type := mkPath { root : pystr; tail : list pystr }.

(** [str(path)] *)
Definition path_str (p : Path) : pystr :=
  match tail p with
  | [] => match root p with [] => py "." | r => r end
  | t => root p ++ join (py "/") t
  end.

(** [path.name]: the final component, [''] when there is none. *)
Definition name (p : Path) : pystr := default [] (last (tail p)).

(** [path.suffix] (pathlib up to Python 3.13):
    [i = name.rfind('.')], then [name[i:]] if [0 < i < len(name) - 1],
    else ['']. *)
Definition suffix (p : Path) : pystr :=
  let nm := name p in
  let i := rfind 46 nm in
  if (0 <? i) && (i <? Z.of_nat (length nm) - 1) then drop (Z.to_nat i) nm
  else [].

Inductive node : Type :=
| File (content : pybytes)
| Directory.

(** A page of an opened PDF, given by what [page.extract_text()] does. *)
Record PageObject : Type := { extract_text : outcome pystr }.

(** The module [PyPDF2], when it is installed: [PdfReader(f).pages] for the
    bytes of the opened file. *)
Record PyPDF2_module : Type :=
  { PdfReader_pages : pybytes -> outcome (list PageObject) }.

(** The request and the response of [client.messages.create]. *)
Record MessageParam : Type := { role : pystr; content : pystr }.

Record Request : Type :=
  { req_api_key : pystr;
    model : pystr;
    max_tokens : Z;
    messages : list MessageParam }.

Inductive ContentBlock : Type :=
| TextBlock (text : pystr)
| ToolUseBlock.                      (* a block without a [text] attribute *)

Record Message : Type := { message_content : list ContentBlock }.

(** Everything outside the program. [environ] is [os.environ]; [dotenv] is
    the key/value pairs of the [.env] file that [load_dotenv] finds, in
    file order, empty when there is no such file. *)
Record World : Type :=
  { fs : gmap pystr node;
    PyPDF2 : option PyPDF2_module;
    environ : gmap pystr pystr;
    dotenv : list (pystr * option pystr);
    messages_create : Request -> outcome Message }.

(** [path.exists()] *)
Definition exists_ (w : World) (p : Path) : bool :=
  match fs w !! path_str p with
  | Some _ => true
  | None => false
  end.

(** [open(path, "rb").read()] *)
Definition read_bytes (w : World) (p : Path) : outcome pybytes :=
  match fs w !! path_str p with
  | None => Raise FileNotFoundError
  | Some Directory => Raise IsADirectoryError
  | Some (File bs) => Return bs
  end.

(** [path.read_text(encoding="utf-8")]: open in text mode, decode, apply
    universal newlines. *)
Definition read_text (w : World) (p : Path) : outcome pystr :=
  bs ← read_bytes w p;
  match utf8_decode bs with
  | Some s => Return (translate_newlines s)
  | None => Raise UnicodeDecodeError
  end.

(** [import PyPDF2] *)
Definition import_PyPDF2 (w : World) : outcome PyPDF2_module :=
  match PyPDF2 w with
  | Some m => Return m
  | None => Raise ImportError
  end.

(** ** cv.py: load_cv_text *)

(** The loop [for page in reader.pages: text += page.extract_text()]. *)
Fixpoint for_pages (pages : list PageObject) (text : pystr) : outcome pystr :=
  match pages with
  | [] => Return text
  | page :: pages' =>
    t ← extract_text page;
    for_pages pages' (text ++ t)
  end.

(** The body of the [try] block of the [.pdf] branch. *)
Definition pdf_try_body (w : World) (cv_path : Path) : outcome pystr :=
  PyPDF2 ← import_PyPDF2 w;
  f ← read_bytes w cv_path;
  pages ← PdfReader_pages PyPDF2 f;
  for_pages pages [].

Definition load_cv_text (w : World) (cv_path : Path) : outcome pystr :=
  if negb (exists_ w cv_path) then
    Raise (CVExtractorError (py "CV file not found: " ++ path_str cv_path))
  else if pystr_eqb (lower (suffix cv_path)) (py ".txt") then
    read_text w cv_path
  else if pystr_eqb (lower (suffix cv_path)) (py ".pdf") then
    except_ImportError
      (pdf_try_body w cv_path)
      (Raise (CVExtractorError
                (py "PyPDF2 not installed. Install it with: pip install PyPDF2")))
  else
    Raise (CVExtractorError
             (py "Unsupported file format: " ++ suffix cv_path
                 ++ py ". Use .txt or .pdf")).

(** ** Python values and the json decoder *)

Set Warnings "-register-all".

(** What [json.loads] can build. A float is kept as the literal handed to
    [float()]: its rounding is not modelled. A [dict] is its items in
    insertion order, keys unique. *)
Inductive pyvalue : Type :=
| PyNone
| PyBool (b : bool)
| PyInt (z : Z)
| PyFloat (literal : pystr)
| PyStr (s : pystr)
| PyList (l : list pyvalue)
| PyDict (items : list (pystr * pyvalue)).

(** [d[k] = v]: an existing key keeps its place and takes the new value. *)
Fixpoint dict_set (d : list (pystr * pyvalue)) (k : pystr) (v : pyvalue)
  : list (pystr * pyvalue) :=
  match d with
  | [] => [(k, v)]
  | (k', v') :: d' =>
    if pystr_eqb k k' then (k', v) :: d' else (k', v') :: dict_set d' k v
  end.

(** [dict(pairs)] *)
Definition dict_of_pairs (pairs : list (pystr * pyvalue))
  : list (pystr * pyvalue) :=
  fold_left (fun d kv => dict_set d (fst kv) (snd kv)) pairs [].

(** [isinstance(v, dict)] *)
Definition is_dict (v : pyvalue) : bool :=
  match v with
  | PyDict _ => true
  | _ => false
  end.

(** The result of scanning a prefix of the input: the value and the text
    left after it, a failure (the decoder raises [JSONDecodeError]), or an
    exhausted recursion budget. *)
Inductive scan (A : Type) : Type :=
| Scanned (a : A) (rest : pystr)
| NoMatch
| OutOfFuel.
Arguments Scanned {A} a rest.
Arguments NoMatch {A}.
Arguments OutOfFuel {A}.

(** The class of [WHITESPACE]: space, tab, line feed, carriage return. *)
Definition is_ws (c : Z) : bool :=
  (c =? 32) || (c =? 9) || (c =? 10) || (c =? 13).

Fixpoint skip_ws (s : pystr) : pystr :=
  match s with
  | c :: s' => if is_ws c then skip_ws s' else s
  | [] => []
  end.

Definition is_digit (c : Z) : bool := (48 <=? c) && (c <=? 57).

(** The digits at the head of [s], and what follows them. *)
Fixpoint span_digits (s : pystr) : pystr * pystr :=
  match s with
  | c :: s' =>
    if is_digit c then
      let '(ds, rest) := span_digits s' in (c :: ds, rest)
    else ([], s)
  | [] => ([], [])
  end.

(** [int(digits)] for a run of ASCII digits, most significant first. *)
Definition int_of_digits (ds : pystr) : Z :=
  fold_left (fun acc d => acc * 10 + (d - 48)) ds 0.

Definition hex_value (c : Z) : option Z :=
  if is_digit c then Some (c - 48)
  else if (97 <=? c) && (c <=? 102) then Some (c - 87)
  else if (65 <=? c) && (c <=? 70) then Some (c - 55)
  else None.

(** [_decode_uXXXX] on the four characters after [\u]. *)
Definition hex4 (h1 h2 h3 h4 : Z) : option Z :=
  a ← hex_value h1; b ← hex_value h2; c ← hex_value h3; d ← hex_value h4;
  Some (((a * 16 + b) * 16 + c) * 16 + d).

(** The table [BACKSLASH] of one-letter escapes. *)
Definition backslash (esc : Z) : option Z :=
  if esc =? 34 then Some 34            (* quote *)
  else if esc =? 92 then Some 92       (* backslash *)
  else if esc =? 47 then Some 47       (* slash *)
  else if esc =? 98 then Some 8        (* b: backspace *)
  else if esc =? 102 then Some 12      (* f: form feed *)
  else if esc =? 110 then Some 10      (* n: line feed *)
  else if esc =? 114 then Some 13      (* r: carriage return *)
  else if esc =? 116 then Some 9       (* t: tab *)
  else None.

Definition is_high_surrogate (u : Z) : bool := (0xD800 <=? u) && (u <=? 0xDBFF).
Definition is_low_surrogate (u : Z) : bool := (0xDC00 <=? u) && (u <=? 0xDFFF).

(** [scanstring(s, end, strict=True)] from just after the opening quote:
    the decoded string and the text after the closing quote. [None] is a
    [JSONDecodeError]: unterminated string, control character, bad escape. *)
Fixpoint scanstring (s : pystr) : option (pystr * pystr) :=
  match s with
  | [] => None
  | c :: r =>
    if c =? 34 then Some ([], r)
    else if c =? 92 then
      match r with
      | [] => None
      | esc :: r1 =>
        if esc =? 117 then
          match r1 with
          | h1 :: h2 :: h3 :: h4 :: r2 =>
            match hex4 h1 h2 h3 h4 with
            | None => None
            | Some uni =>
              match r2 with
              | b :: u :: g1 :: g2 :: g3 :: g4 :: r3 =>
                if is_high_surrogate uni && (b =? 92) && (u =? 117) then
                  match hex4 g1 g2 g3 g4 with
                  | None => None
                  | Some uni2 =>
                    if is_low_surrogate uni2 then
                      '(str, rest) ← scanstring r3;
                      Some ((0x10000 + ((uni - 0xD800) * 1024 + (uni2 - 0xDC00)))
                              :: str, rest)
                    else
                      '(str, rest) ← scanstring r2;
                      Some (uni :: str, rest)
                  end
                else
                  '(str, rest) ← scanstring r2;
                  Some (uni :: str, rest)
              | _ =>
                '(str, rest) ← scanstring r2;
                Some (uni :: str, rest)
              end
            end
          | _ => None
          end
        else
          match backslash esc with
          | None => None
          | Some char =>
            '(str, rest) ← scanstring r1;
            Some (char :: str, rest)
          end
      end
    else if (0 <=? c) && (c <=? 0x1F) then None
    else
      '(str, rest) ← scanstring r;
      Some (c :: str, rest)
  end.

(** [NUMBER_RE] matched at the head of [s], one group at a time: the
    integer part (an optional minus, then a lone zero or a digit run that
    does not start with zero), the fraction (a dot and at least one digit)
    and the exponent (e or E, an optional sign, at least one digit). Each
    gives the matched text and the text after it. *)
Definition match_integer (s : pystr) : option (pystr * pystr) :=
  let '(sign, s1) :=
    match s with
    | c :: r => if c =? 45 then ([45], r) else ([], s)
    | [] => ([], s)
    end in
  match s1 with
  | c :: r =>
    if c =? 48 then Some (sign ++ [48], r)
    else if is_digit c then
      let '(ds, rest) := span_digits r in Some (sign ++ c :: ds, rest)
    else None
  | [] => None
  end.

Definition match_frac (s : pystr) : option (pystr * pystr) :=
  match s with
  | c :: r =>
    if c =? 46 then
      match span_digits r with
      | ([], _) => None
      | (ds, rest) => Some (c :: ds, rest)
      end
    else None
  | [] => None
  end.

Definition match_exp (s : pystr) : option (pystr * pystr) :=
  match s with
  | e :: r =>
    if (e =? 101) || (e =? 69) then
      let '(sign, r1) :=
        match r with
        | c :: r' => if (c =? 45) || (c =? 43) then ([c], r') else ([], r)
        | [] => ([], r)
        end in
      match span_digits r1 with
      | ([], _) => None
      | (ds, rest) => Some (e :: sign ++ ds, rest)
      end
    else None
  | [] => None
  end.

(** [int(integer)] for the first group of [NUMBER_RE]. *)
Definition parse_int (integer : pystr) : Z :=
  match integer with
  | c :: ds => if c =? 45 then - int_of_digits ds else int_of_digits integer
  | [] => 0
  end.

Definition match_number (s : pystr) : option (pyvalue * pystr) :=
  '(integer, s1) ← match_integer s;
  let '(frac, s2) := match match_frac s1 with
                     | Some (f, r) => (f, r)
                     | None => ([], s1)
                     end in
  let '(exp, s3) := match match_exp s2 with
                    | Some (e, r) => (e, r)
                    | None => ([], s2)
                    end in
  match frac, exp with
  | [], [] => Some (PyInt (parse_int integer), s3)
  | _, _ => Some (PyFloat (integer ++ frac ++ exp), s3)
  end.

(** [string[idx:idx+len(lit)] == lit], with the text after the literal. *)
Definition literal (lit : string) (s : pystr) : option pystr :=
  if startswith (py lit) s then Some (drop (length (py lit)) s) else None.

(** [scan_once], [JSONArray] and [JSONObject], each with the text it
    starts at instead of an index into the string. The recursion of the
    decoder is bounded by [fuel]. [JSONArray_items] and [JSONObject_items]
    are the two [while True] loops; the first starts at a value, the second
    just after the opening quote of a key. *)
Fixpoint scan_once (fuel : nat) (s : pystr) : scan pyvalue :=
  match fuel with
  | O => OutOfFuel
  | S fuel' =>
    match s with
    | [] => NoMatch
    | nextchar :: r =>
      if nextchar =? 34 then
        match scanstring r with
        | Some (str, rest) => Scanned (PyStr str) rest
        | None => NoMatch
        end
      else if nextchar =? 123 then
        match skip_ws r with
        | c :: r1 =>
          if c =? 125 then Scanned (PyDict []) r1
          else if c =? 34 then JSONObject_items fuel' r1 []
          else NoMatch
        | [] => NoMatch
        end
      else if nextchar =? 91 then
        match skip_ws r with
        | c :: r1 =>
          if c =? 93 then Scanned (PyList []) r1
          else JSONArray_items fuel' (c :: r1) []
        | [] => NoMatch
        end
      else
        match literal "null" s, literal "true" s, literal "false" s with
        | Some rest, _, _ => Scanned PyNone rest
        | _, Some rest, _ => Scanned (PyBool true) rest
        | _, _, Some rest => Scanned (PyBool false) rest
        | None, None, None =>
          match match_number s with
          | Some (v, rest) => Scanned v rest
          | None =>
            match literal "NaN" s, literal "Infinity" s,
                  literal "-Infinity" s with
            | Some rest, _, _ => Scanned (PyFloat (py "NaN")) rest
            | _, Some rest, _ => Scanned (PyFloat (py "Infinity")) rest
            | _, _, Some rest => Scanned (PyFloat (py "-Infinity")) rest
            | None, None, None => NoMatch
            end
          end
        end
    end
  end
with JSONArray_items (fuel : nat) (s : pystr) (values : list pyvalue)
  : scan pyvalue :=
  match fuel with
  | O => OutOfFuel
  | S fuel' =>
    match scan_once fuel' s with
    | Scanned value rest =>
      match skip_ws rest with
      | c :: r =>
        if c =? 93 then Scanned (PyList (values ++ [value])) r
        else if c =? 44 then
          JSONArray_items fuel' (skip_ws r) (values ++ [value])
        else NoMatch
      | [] => NoMatch
      end
    | NoMatch => NoMatch
    | OutOfFuel => OutOfFuel
    end
  end
with JSONObject_items (fuel : nat) (s : pystr) (pairs : list (pystr * pyvalue))
  : scan pyvalue :=
  match fuel with
  | O => OutOfFuel
  | S fuel' =>
    match scanstring s with
    | None => NoMatch
    | Some (key, r1) =>
      match skip_ws r1 with
      | colon :: r2 =>
        if colon =? 58 then
          match scan_once fuel' (skip_ws r2) with
          | Scanned value rest =>
            match skip_ws rest with
            | c :: r3 =>
              if c =? 125 then
                Scanned (PyDict (dict_of_pairs (pairs ++ [(key, value)]))) r3
              else if c =? 44 then
                match skip_ws r3 with
                | q :: r4 =>
                  if q =? 34 then
                    JSONObject_items fuel' r4 (pairs ++ [(key, value)])
                  else NoMatch
                | [] => NoMatch
                end
              else NoMatch
            | [] => NoMatch
            end
          | NoMatch => NoMatch
          | OutOfFuel => OutOfFuel
          end
        else NoMatch
      | [] => NoMatch
      end
    end
  end.

(** A scanner consumes input: what it leaves is shorter than what it was
    given. *)
Definition consumes (f : pystr -> scan pyvalue) : Prop :=
  forall s v rest, f s = Scanned v rest -> (length rest < length s)%nat.

(** [JSONDecoder.decode]: leading whitespace, one value, trailing
    whitespace, then the end of the string. *)
Definition JSONDecoder_decode (fuel : nat) (s : pystr) : scan pyvalue :=
  match scan_once fuel (skip_ws s) with
  | Scanned obj rest =>
    match skip_ws rest with
    | [] => Scanned obj []
    | _ :: _ => NoMatch
    end
  | other => other
  end.

(** The recursion budget [json_loads] gives the decoder; [scan_fuel] and
    [decode_fuel_enough] below show that it is never used up. *)
Definition decode_fuel (s : pystr) : nat := 2 * length s + 1.

(** [json.loads(s)] for a [str]. A leading U+FEFF is refused; running out
    of the recursion budget is a [RecursionError]. The budget of the model
    grows with the input and always suffices. The fixed limits of an
    interpreter (depth of recursion, digits of an integer literal) are
    resource limits and are not modelled. *)
Definition json_loads (s : pystr) : outcome pyvalue :=
  if startswith [0xFEFF] s then Raise JSONDecodeError
  else
    match JSONDecoder_decode (decode_fuel s) s with
    | Scanned obj _ => Return obj
    | NoMatch => Raise JSONDecodeError
    | OutOfFuel => Raise RecursionError
    end.

(** ** The process environment *)

(** [load_dotenv()] with its default [override=False]: a pair of the
    [.env] file is set in [os.environ] unless the key is there already or
    the file gives it no value. *)
Definition set_as_environment_variables
    (env : gmap pystr pystr) (pairs : list (pystr * option pystr))
  : gmap pystr pystr :=
  fold_left
    (fun env kv =>
       match env !! fst kv, snd kv with
       | None, Some v => <[fst kv := v]> env
       | _, _ => env
       end)
    pairs env.

Definition load_dotenv (w : World) : World :=
  {| fs := fs w;
     PyPDF2 := PyPDF2 w;
     environ := set_as_environment_variables (environ w) (dotenv w);
     dotenv := dotenv w;
     messages_create := messages_create w |}.

(** [os.getenv(key)] *)
Definition getenv (w : World) (key : pystr) : option pystr := environ w !! key.

(** ** cv.py: load_api_key *)

(** Returns the world after [load_dotenv()] together with the outcome.
    [not api_key] holds for [None] and for the empty string. *)
Definition load_api_key (w : World) : World * outcome pystr :=
  let w := load_dotenv w in
  match getenv w (py "ANTHROPIC_API_KEY") with
  | None | Some [] =>
    (w, Raise (CVExtractorError
                 (py "Missing ANTHROPIC_API_KEY in environment. Set it in your .env file.")))
  | Some api_key => (w, Return api_key)
  end.

(** ** cv.py: extract_cv_with_llm and extract_skills *)

(** The arguments of [client.messages.create]. *)
Definition create_request (cv_text api_key prompt : pystr) : Request :=
  {| req_api_key := api_key;
     model := py "claude-3-haiku-20240307";
     max_tokens := 2048;
     messages :=
       [ {| role := py "user";
            content := prompt ++ [10; 10] ++ py "---CV CONTENT---"
                              ++ [10; 10] ++ cv_text |} ] |}.

(** [message.content[0]] *)
Definition first_block (message : Message) : outcome ContentBlock :=
  match message_content message with
  | block :: _ => Return block
  | [] => Raise IndexError
  end.

(** [block.text] *)
Definition get_text (block : ContentBlock) : outcome pystr :=
  match block with
  | TextBlock text => Return text
  | ToolUseBlock => Raise AttributeError
  end.

Definition extract_cv_with_llm (w : World) (cv_text api_key prompt : pystr)
  : outcome pyvalue :=
  message ← messages_create w (create_request cv_text api_key prompt);
  block ← first_block message;
  response_text ← get_text block;
  except_JSONDecodeError
    (json_loads response_text)
    (Return (PyDict [(py "raw_response", PyStr response_text)])).

(** A string literal of the prompt, between double quotes. *)
Definition dq (s : string) : pystr := [34] ++ py s ++ [34].

(** One line of the JSON shape shown in the prompt. *)
Definition prompt_line (key comma : string) : pystr :=
  py "  " ++ dq key ++ py ": [" ++ dq "skill1" ++ py ", " ++ dq "skill2"
     ++ py ", ...]" ++ py comma.

Definition skills_prompt : pystr :=
  join [10]
    [ py "Extract all skills from this CV. Categorize them as follows:";
      py "- Technical Skills: programming languages, tools, frameworks, technologies";
      py "- Professional Skills: soft skills, methodologies, certifications";
      py "- Domain Skills: industry-specific expertise";
      [];
      py "Return ONLY valid JSON with this structure:";
      py "{";
      prompt_line "technical_skills" ",";
      prompt_line "professional_skills" ",";
      prompt_line "domain_skills" "";
      py "}" ].

Definition extract_skills (w : World) (cv_text api_key : pystr)
  : outcome pyvalue :=
  extract_cv_with_llm w cv_text api_key skills_prompt.

(** ** Concrete worlds used by the examples *)

(** A client that answers every request with one text block. *)
Definition mock_client (response : pystr) : Request -> outcome Message :=
  fun _ => Return {| message_content := [TextBlock response] |}.

(** A client whose answer has no content block at all. *)
Definition empty_client : Request -> outcome Message :=
  fun _ => Return {| message_content := [] |}.

Definition mock_world (files : list (pystr * node)) (lib : option PyPDF2_module)
    (env : list (pystr * pystr)) (dotenv_pairs : list (pystr * option pystr))
    (client : Request -> outcome Message) : World :=
  {| fs := list_to_map files;
     PyPDF2 := lib;
     environ := list_to_map env;
     dotenv := dotenv_pairs;
     messages_create := client |}.

(** A world with the given files and nothing else. *)
Definition files_world (files : list (pystr * node)) : World :=
  mock_world files None [] [] empty_client.

(** A world whose client answers [response]. *)
Definition response_world (response : pystr) : World :=
  mock_world [] None [] [] (mock_client response).

(** The relative path with the single component [name]. *)
Definition relative (name : string) : Path := mkPath [] [py name].

(** A PDF reader that finds two pages in every file. *)
Definition two_pages : PyPDF2_module :=
  {| PdfReader_pages := fun _ =>
       Return [ {| extract_text := Return (py "Jude. ") |};
                {| extract_text := Return (py "Python, Go") |} ] |}.

(** A directory with three files: no suffix, [.TXT] and [.Pdf]. *)
Definition formats_world : World :=
  mock_world [(py "README", File [104; 105]);
              (py "CV.TXT", File [104; 105]);
              (py "cv.Pdf", File [37; 80; 68; 70])]
             (Some two_pages) [] [] empty_client.

(** A text file with a Windows line ending: [a CR LF b]. *)
Definition crlf_world : World :=
  files_world [(py "cv.txt", File [97; 13; 10; 98])].

(** A text file holding U+00E9, a line feed and U+20AC in UTF-8. *)
Definition utf8_world : World :=
  files_world [(py "cv.TXT", File [0xC3; 0xA9; 10; 0xE2; 0x82; 0xAC])].

(** The program's own input file, with the PDF reader installed. *)
Definition pdf_world : World :=
  mock_world [(py "bolu.pdf", File [37; 80; 68; 70])]
             (Some two_pages) [] [] empty_client.

(** The key is set to the empty string in the process environment, and
    the [.env] file would give it a value. *)
Definition empty_key_world : World :=
  mock_world [] None [(py "ANTHROPIC_API_KEY", [])]
             [(py "ANTHROPIC_API_KEY", Some (py "sk-ant-file"))] empty_client.

(** The key is set to a single space. *)
Definition blank_key_world : World :=
  mock_world [] None [(py "ANTHROPIC_API_KEY", py " ")] [] empty_client.

(** The response of the spec's first scenario. *)
Definition python_skills_response : pystr :=
  py "{" ++ dq "technical_skills" ++ py ": [" ++ dq "Python" ++ py "], "
     ++ dq "professional_skills" ++ py ": [], "
     ++ dq "domain_skills" ++ py ": []}".

(** ** The json encoder *)

(** The digits of a decimal number, most significant first. *)
Fixpoint uint_digits (u : Decimal.uint) : pystr :=
  match u with
  | Decimal.Nil => []
  | Decimal.D0 u' => 48 :: uint_digits u'
  | Decimal.D1 u' => 49 :: uint_digits u'
  | Decimal.D2 u' => 50 :: uint_digits u'
  | Decimal.D3 u' => 51 :: uint_digits u'
  | Decimal.D4 u' => 52 :: uint_digits u'
  | Decimal.D5 u' => 53 :: uint_digits u'
  | Decimal.D6 u' => 54 :: uint_digits u'
  | Decimal.D7 u' => 55 :: uint_digits u'
  | Decimal.D8 u' => 56 :: uint_digits u'
  | Decimal.D9 u' => 57 :: uint_digits u'
  end.

(** [int.__repr__]: the decimal digits, after a minus sign when negative. *)
Definition int_repr (z : Z) : pystr :=
  match Z.to_int z with
  | Decimal.Pos u => uint_digits u
  | Decimal.Neg u => 45 :: uint_digits u
  end.

(** A lower-case hexadecimal digit. *)
Definition hex_digit (n : Z) : Z := if n <? 10 then 48 + n else 87 + n.

(** [ESCAPE_DCT]: what the encoder writes for one character when
    [ensure_ascii] is false. The quote, the backslash and the control
    characters are escaped; every other character is written as it is. *)
Definition escape_char (c : Z) : pystr :=
  if c =? 34 then [92; 34]
  else if c =? 92 then [92; 92]
  else if c =? 8 then [92; 98]
  else if c =? 12 then [92; 102]
  else if c =? 10 then [92; 110]
  else if c =? 13 then [92; 114]
  else if c =? 9 then [92; 116]
  else if (0 <=? c) && (c <=? 0x1F) then
    [92; 117; 48; 48; hex_digit (c / 16); hex_digit (c mod 16)]
  else [c].

(** [encode_basestring(s)] *)
Definition encode_basestring (s : pystr) : pystr :=
  [34] ++ flat_map escape_char s ++ [34].

(** A line feed and the indentation of [level] nested containers, two
    spaces each. *)
Definition newline_indent (level : nat) : pystr := 10 :: repeat 32 (2 * level).

(** One run of the program: the world it leaves, what it wrote to standard
    output, and how it ended. *)
Record Run : Type :=
  { world_after : World; stdout : pybytes; exit : outcome unit }.

(** What may follow a number without being read as part of it: anything
    but a digit, a dot or an exponent mark. *)
Definition ends_number (rest : pystr) : Prop :=
  match rest with
  | c :: _ => is_digit c = false /\ c <> 46 /\ c <> 101 /\ c <> 69
  | [] => True
  end.

Section Encoder.

(** [float.__repr__] of the float a literal stands for, with [NaN],
    [Infinity] and [-Infinity] for the values that are not finite. Floats
    are not modelled, so this is left open. *)
Variable floatstr : pystr -> pystr.

(** [_iterencode(o, level)] with [indent=2], [ensure_ascii=False] and the
    separators that go with an indent: a comma between items, a colon and
    a space after a key. *)
Fixpoint iterencode (level : nat) (o : pyvalue) {struct o} : pystr :=
  match o with
  | PyStr s => encode_basestring s
  | PyNone => py "null"
  | PyBool true => py "true"
  | PyBool false => py "false"
  | PyInt z => int_repr z
  | PyFloat literal => floatstr literal
  | PyList [] => py "[]"
  | PyList lst =>
    [91] ++ newline_indent (S level)
         ++ join ([44] ++ newline_indent (S level))
                 (map (iterencode (S level)) lst)
         ++ newline_indent level ++ [93]
  | PyDict [] => py "{}"
  | PyDict dct =>
    [123] ++ newline_indent (S level)
          ++ join ([44] ++ newline_indent (S level))
                  (map (fun item => encode_basestring (fst item) ++ py ": "
                                    ++ iterencode (S level) (snd item)) dct)
          ++ newline_indent level ++ [125]
  end.

(** One item of a mapping as [iterencode] writes it. *)
Definition encode_item (level : nat) (item : pystr * pyvalue) : pystr :=
  encode_basestring (fst item) ++ py ": " ++ iterencode level (snd item).

(** [json.dumps(obj, indent=2, ensure_ascii=False)] *)
Definition json_dumps (obj : pyvalue) : pystr := iterencode 0 obj.

(** The decoder reads a value written by the encoder, at any indentation
    and before any text that does not continue a number. *)
Definition reads_back (v : pyvalue) : Prop :=
  forall level rest,
    ends_number rest ->
    exists n,
      scan_once n (iterencode level v ++ rest) = Scanned v rest.

(** ** cv.py: main *)

(** How the standard output stream turns text into bytes: its encoding and
    its newline convention. [None] stands for [UnicodeEncodeError]. On a
    POSIX terminal in UTF-8 this is [utf8_encode]. *)
Variable encode_stdout : pystr -> option pybytes.

(** [sys.stdout.write(s)], given what was written before. *)
Definition write (out : pybytes) (s : pystr) : pybytes * outcome unit :=
  match encode_stdout s with
  | Some bs => (out ++ bs, Return tt)
  | None => (out, Raise (LibraryError (py "UnicodeEncodeError")))
  end.

(** [print(s)]: the text, then a line feed. *)
Definition print (out : pybytes) (s : pystr) : pybytes * outcome unit :=
  match write out s with
  | (out, Return _) => write out [10]
  | (out, Raise e) => (out, Raise e)
  end.

(** [main()]. [Path("bolu.pdf")] has the single component [bolu.pdf]. An
    error ends the run where it is raised. *)
Definition main (w : World) : Run :=
  let cv_pdf_path := mkPath [] [py "bolu.pdf"] in
  let '(w, api_key) := load_api_key w in
  match api_key ← api_key;
        cv_text ← load_cv_text w cv_pdf_path;
        extract_skills w cv_text api_key with
  | Return result =>
    let '(out, r) := print [] (json_dumps result) in
    {| world_after := w; stdout := out; exit := r |}
  | Raise e => {| world_after := w; stdout := []; exit := Raise e |}
  end.

End Encoder.

(** ** Predicates on values and on responses *)

(** No float anywhere in the value. *)
Fixpoint float_free (v : pyvalue) : bool :=
  match v with
  | PyFloat _ => false
  | PyList l => forallb float_free l
  | PyDict items => forallb (fun item => float_free (snd item)) items
  | _ => true
  end.

(** No string occurs twice in the list. *)
Fixpoint distinct (keys : list pystr) : bool :=
  match keys with
  | [] => true
  | key :: keys' => negb (existsb (pystr_eqb key) keys') && distinct keys'
  end.

(** Every mapping in the value, at any depth, has pairwise distinct keys,
    as a Python [dict] has. *)
Fixpoint unique_keys (v : pyvalue) : bool :=
  match v with
  | PyList l => forallb unique_keys l
  | PyDict items =>
    distinct (map fst items)
    && forallb (fun item => unique_keys (snd item)) items
  | _ => true
  end.

(** The characters a JSON value can start with: a quote, a brace, a
    bracket, a minus sign, a digit, and the first letters of [null],
    [true], [false], [NaN] and [Infinity]. *)
Definition json_start (c : Z) : bool :=
  (c =? 34) || (c =? 123) || (c =? 91) || (c =? 45) || is_digit c
  || (c =? 110) || (c =? 116) || (c =? 102) || (c =? 78) || (c =? 73).

(** ** More worlds *)

(** The same world with another API client. *)
Definition with_client (w : World) (client : Request -> outcome Message)
  : World :=
  {| fs := fs w;
     PyPDF2 := PyPDF2 w;
     environ := environ w;
     dotenv := dotenv w;
     messages_create := client |}.

(** The same world with another file system. *)
Definition with_fs (w : World) (files : gmap pystr node) : World :=
  {| fs := files;
     PyPDF2 := PyPDF2 w;
     environ := environ w;
     dotenv := dotenv w;
     messages_create := messages_create w |}.

(** A PDF reader whose second page of three cannot be read. *)
Definition broken_second_page : PyPDF2_module :=
  {| PdfReader_pages := fun _ =>
       Return [ {| extract_text := Return (py "Jude. ") |};
                {| extract_text := Raise (LibraryError (py "PdfReadError")) |};
                {| extract_text := Return (py "Python, Go") |} ] |}.

(** The program's input file with a reader that fails on its second page. *)
Definition broken_pdf_world : World :=
  mock_world [(py "bolu.pdf", File [37; 80; 68; 70])]
             (Some broken_second_page) [] [] empty_client.

(** The key is absent from the process environment; the [.env] file names
    it three times, first without a value. *)
Definition dotenv_key_world : World :=
  mock_world [] None [(py "HOME", py "/root")]
             [(py "HOME", Some (py "/tmp"));
              (py "ANTHROPIC_API_KEY", None);
              (py "ANTHROPIC_API_KEY", Some (py "sk-ant-file"));
              (py "ANTHROPIC_API_KEY", Some (py "sk-ant-later"))]
             empty_client.

(** Everything a run needs: the key, the input file, the PDF reader, and a
    client that answers [response]. *)
Definition complete_world (response : pystr) : World :=
  mock_world [(py "bolu.pdf", File [37; 80; 68; 70])]
             (Some two_pages)
             [(py "ANTHROPIC_API_KEY", py "sk-ant-test")] []
             (mock_client response).

(** A stand-in for [float.__repr__] in runs that meet no float. *)
Definition no_floatstr : pystr -> pystr := fun literal => literal.

(** * Properties *)

(** ** Strings *)

Lemma pystr_eqb_eq (a b : pystr) : pystr_eqb a b = true <-> a = b.
Proof.
  revert b; induction a as [|x a IH]; intros [|y b]; simpl; try easy.
  rewrite andb_true_iff, Z.eqb_eq, IH.
  split; [intros [-> ->]; reflexivity | intros [= -> ->]; auto].
Qed.

Lemma pystr_eqb_neq (a b : pystr) : pystr_eqb a b = false <-> a <> b.
Proof.
  rewrite <- pystr_eqb_eq. destruct (pystr_eqb a b); split; congruence.
Qed.

Lemma startswith_length (p s : pystr) :
  startswith p s = true -> (length p <= length s)%nat.
Proof.
  revert s; induction p as [|x p IH]; intros [|y s]; simpl; try easy; try lia.
  rewrite andb_true_iff. intros [_ H]. apply IH in H. lia.
Qed.

(** ** pathlib: the suffix of a name *)

Lemma rfind_from_app (c : Z) (a b : pystr) :
  forall i found,
    rfind_from c (a ++ b) i found
    = rfind_from c b (i + Z.of_nat (length a)) (rfind_from c a i found).
Proof.
  induction a as [|x a IH]; intros i found; simpl.
  - f_equal. lia.
  - rewrite IH. f_equal. lia.
Qed.

Lemma rfind_from_absent (c : Z) (s : pystr) :
  c ∉ s -> forall i found, rfind_from c s i found = found.
Proof.
  induction s as [|x s IH]; intros Hc i found; simpl; [reflexivity|].
  apply not_elem_of_cons in Hc as [Hx Hs].
  rewrite IH by assumption.
  destruct (x =? c) eqn:E; [apply Z.eqb_eq in E; congruence|reflexivity].
Qed.

(** The suffix of a final component [stem.ext], where [stem] and [ext] are
    not empty and [ext] holds no dot, is [.ext]. *)
Lemma suffix_stem_ext (r : pystr) (dirs : list pystr) (stem ext : pystr) :
  stem <> [] -> ext <> [] -> 46 ∉ ext ->
  suffix (mkPath r (dirs ++ [stem ++ 46 :: ext])) = 46 :: ext.
Proof.
  intros Hstem Hext Hdot. unfold suffix, name. simpl tail.
  rewrite last_snoc. simpl default.
  unfold rfind. rewrite rfind_from_app.
  change (rfind_from 46 (46 :: ext) ?i ?f)
    with (rfind_from 46 ext (i + 1) (if 46 =? 46 then i else f)).
  rewrite Z.eqb_refl, rfind_from_absent by assumption.
  rewrite length_app. simpl length.
  destruct stem as [|x stem]; [congruence|].
  destruct ext as [|y ext]; [congruence|].
  destruct (_ && _) eqn:E.
  - rewrite Z.add_0_l, Nat2Z.id. rewrite drop_app_length. reflexivity.
  - apply andb_false_iff in E as [E|E];
      [apply Z.ltb_ge in E|apply Z.ltb_ge in E]; simpl length in E; lia.
Qed.

Example suffix_examples :
  suffix (relative "bolu.pdf") = py ".pdf"
  /\ suffix (mkPath (py "/") [py "home"; py "cv.backup.TXT"]) = py ".TXT"
  /\ suffix (relative ".env") = []
  /\ suffix (relative "notes.") = []
  /\ suffix (relative "README") = []
  /\ path_str (mkPath (py "/") [py "home"; py "cv.backup.TXT"])
     = py "/home/cv.backup.TXT".
Proof. repeat split. Qed.

(** ** The json decoder consumes input and never runs out of fuel *)

Lemma skip_ws_length (s : pystr) : (length (skip_ws s) <= length s)%nat.
Proof.
  induction s as [|c s IH]; simpl; [lia|].
  destruct (is_ws c); simpl; lia.
Qed.

Lemma span_digits_length (s ds rest : pystr) :
  span_digits s = (ds, rest) -> length s = (length ds + length rest)%nat.
Proof.
  revert ds rest; induction s as [|c s IH]; simpl; intros ds rest H.
  - injection H as <- <-. reflexivity.
  - destruct (is_digit c).
    + destruct (span_digits s) as [ds' rest'] eqn:E.
      injection H as <- <-. simpl. rewrite (IH _ _ eq_refl). reflexivity.
    + injection H as <- <-. reflexivity.
Qed.

Lemma span_digits_rest (s : pystr) :
  (length (snd (span_digits s)) <= length s)%nat.
Proof.
  destruct (span_digits s) as [ds rest] eqn:E.
  apply span_digits_length in E. simpl. lia.
Qed.

Lemma literal_length (lit : string) (s rest : pystr) :
  literal lit s = Some rest ->
  length s = (length (py lit) + length rest)%nat.
Proof.
  unfold literal. destruct (startswith (py lit) s) eqn:E; [|discriminate].
  intros [= <-]. apply startswith_length in E.
  rewrite length_drop. lia.
Qed.

(** Case split on the scrutinee of a [match] or [if] in a hypothesis. *)
Ltac split_match_in H :=
  match type of H with
  | context [match ?x with _ => _ end] =>
    lazymatch x with
    | context [match _ with _ => _ end] => fail
    | _ => destruct x eqn:?; try discriminate H
    end
  end.

(** Case split on the scanned string under a bind of the option monad. *)
Ltac split_bind_in H :=
  match type of H with
  | context [mbind _ ?x] =>
    let E := fresh "E" in
    destruct x as [[? ?]|] eqn:E; [simpl in H|discriminate H]
  end.

Lemma scanstring_length_bounded (n : nat) :
  forall s str rest,
    (length s <= n)%nat -> scanstring s = Some (str, rest) ->
    (length rest < length s)%nat.
Proof.
  induction n as [|n IH]; intros s str rest Hn H.
  - destruct s; simpl in *; [discriminate | lia].
  - destruct s as [|c r]; simpl in H; [discriminate|].
    repeat split_match_in H; try split_bind_in H; simplify_eq.
    all: try (simpl; lia).
    all: match goal with
         | E : scanstring _ = Some _ |- _ => apply IH in E; simpl in *; lia
         end.
Qed.

Lemma scanstring_length (s str rest : pystr) :
  scanstring s = Some (str, rest) -> (length rest < length s)%nat.
Proof. apply (scanstring_length_bounded (length s)). lia. Qed.

Lemma match_integer_length (s integer rest : pystr) :
  match_integer s = Some (integer, rest) -> (length rest < length s)%nat.
Proof.
  unfold match_integer. intros H.
  repeat split_match_in H; simplify_eq; simpl.
  all: try match goal with
       | E : span_digits _ = _ |- _ => apply span_digits_length in E
       end; simpl in *; lia.
Qed.

Lemma match_frac_length (s frac rest : pystr) :
  match_frac s = Some (frac, rest) -> (length rest < length s)%nat.
Proof.
  unfold match_frac. intros H.
  repeat split_match_in H; simplify_eq; simpl.
  all: match goal with
       | E : span_digits _ = _ |- _ => apply span_digits_length in E
       end; simpl in *; lia.
Qed.

Lemma match_exp_length (s exp rest : pystr) :
  match_exp s = Some (exp, rest) -> (length rest < length s)%nat.
Proof.
  unfold match_exp. intros H.
  repeat split_match_in H; simplify_eq; simpl.
  all: match goal with
       | E : span_digits _ = _ |- _ => apply span_digits_length in E
       end; simpl in *; lia.
Qed.

Lemma match_number_length (s : pystr) (v : pyvalue) (rest : pystr) :
  match_number s = Some (v, rest) -> (length rest < length s)%nat.
Proof.
  unfold match_number. intros H.
  destruct (match_integer s) as [[integer s1]|] eqn:Ei; [simpl in H|discriminate].
  apply match_integer_length in Ei.
  destruct (match_frac s1) as [[frac s2]|] eqn:Ef;
    [apply match_frac_length in Ef|];
    (destruct (match_exp _) as [[exp s3]|] eqn:Ee;
     [apply match_exp_length in Ee|]);
    repeat split_match_in H; simplify_eq; lia.
Qed.

Arguments literal : simpl never.
Arguments match_number : simpl never.
Arguments scanstring : simpl never.
Arguments skip_ws : simpl never.

(** Turn what is known about the pieces of a scan into facts on lengths. *)
Ltac length_facts :=
  repeat match goal with
  | E : scanstring _ = Some _ |- _ => apply scanstring_length in E
  | E : match_number _ = Some _ |- _ => apply match_number_length in E
  | E : literal _ _ = Some _ |- _ => apply literal_length in E
  | E : skip_ws ?r = _ :: _ |- _ =>
    let L := fresh "L" in
    pose proof (skip_ws_length r) as L; rewrite E in L; clear E
  | E : skip_ws ?r = [] |- _ => clear E
  end;
  repeat match goal with
  | H : context [length (skip_ws ?r)] |- _ =>
    lazymatch goal with
    | _ : (length (skip_ws r) <= length r)%nat |- _ => fail
    | _ => pose proof (skip_ws_length r)
    end
  | |- context [length (skip_ws ?r)] =>
    lazymatch goal with
    | _ : (length (skip_ws r) <= length r)%nat |- _ => fail
    | _ => pose proof (skip_ws_length r)
    end
  end.

Lemma scan_consumes (n : nat) :
  consumes (scan_once n) /\
  (forall values, consumes (fun s => JSONArray_items n s values)) /\
  (forall pairs, consumes (fun s => JSONObject_items n s pairs)).
Proof.
  unfold consumes.
  induction n as [|n (IHv & IHa & IHo)]; [repeat split; discriminate|].
  repeat split.
  - intros s v rest H. destruct s as [|c r]; simpl in H; [discriminate|].
    repeat split_match_in H; simplify_eq;
      try match goal with
      | E : JSONArray_items _ _ _ = _ |- _ => apply IHa in E
      | E : JSONObject_items _ _ _ = _ |- _ => apply IHo in E
      end; length_facts; simpl in *; lia.
  - intros values s v rest H. simpl in H.
    destruct (scan_once n s) as [value r0| |] eqn:E; try discriminate.
    apply IHv in E.
    repeat split_match_in H; simplify_eq;
      try match goal with
      | E : JSONArray_items _ _ _ = _ |- _ => apply IHa in E
      end; length_facts; simpl in *; lia.
  - intros pairs s v rest H. simpl in H.
    repeat split_match_in H; simplify_eq;
      repeat match goal with
      | E : scan_once _ _ = Scanned _ _ |- _ => apply IHv in E
      | E : JSONObject_items _ _ _ = _ |- _ => apply IHo in E
      end; length_facts; simpl in *; lia.
Qed.

(** Case split on the scrutinee of a [match] or [if] in the goal. *)
Ltac split_match :=
  match goal with
  | |- context [match ?x with _ => _ end] =>
    lazymatch x with
    | context [match _ with _ => _ end] => fail
    | _ => destruct x eqn:?; try discriminate
    end
  end.

Lemma scan_fuel (n : nat) :
  (forall s, (2 * length s + 1 <= n)%nat -> scan_once n s <> OutOfFuel) /\
  (forall s values, (2 * length s + 2 <= n)%nat ->
     JSONArray_items n s values <> OutOfFuel) /\
  (forall s pairs, (2 * length s + 1 <= n)%nat ->
     JSONObject_items n s pairs <> OutOfFuel).
Proof.
  induction n as [|n (IHv & IHa & IHo)]; [repeat split; intros; lia|].
  repeat split.
  - intros s Hn. destruct s as [|c r]; simpl; [discriminate|].
    repeat split_match; try discriminate.
    + apply IHo. length_facts. simpl in *. lia.
    + apply IHa. length_facts. simpl in *. lia.
  - intros s values Hn. simpl.
    destruct (scan_once n s) as [value r0| |] eqn:E; try discriminate.
    + pose proof (proj1 (scan_consumes n) _ _ _ E).
      repeat split_match; try discriminate.
      apply IHa. length_facts. simpl in *. lia.
    + exfalso. revert E. apply IHv. lia.
  - intros s pairs Hn. simpl.
    destruct (scanstring s) as [[key r1]|] eqn:Ek; [|discriminate].
    destruct (skip_ws r1) as [|colon r2] eqn:Ec; [discriminate|].
    destruct (colon =? 58); [|discriminate].
    destruct (scan_once n (skip_ws r2)) as [value r0| |] eqn:E; try discriminate.
    + pose proof (proj1 (scan_consumes n) _ _ _ E).
      repeat split_match; try discriminate.
      apply IHo. length_facts. simpl in *. lia.
    + exfalso. revert E. apply IHv. length_facts. simpl in *. lia.
Qed.

Lemma decode_fuel_enough (s : pystr) : JSONDecoder_decode (decode_fuel s) s <> OutOfFuel.
Proof.
  unfold JSONDecoder_decode, decode_fuel.
  destruct (scan_once _ _) as [obj rest| |] eqn:E.
  - destruct (skip_ws rest); discriminate.
  - discriminate.
  - exfalso. revert E. apply scan_fuel. pose proof (skip_ws_length s). lia.
Qed.

Lemma json_loads_total (s : pystr) :
  (exists v, json_loads s = Return v) \/ json_loads s = Raise JSONDecodeError.
Proof.
  unfold json_loads. destruct (startswith _ s); [right; reflexivity|].
  pose proof (decode_fuel_enough s).
  destruct (JSONDecoder_decode _ s); [left; eauto | right; reflexivity | congruence].
Qed.

Example json_loads_examples :
  json_loads (py " { " ++ dq "a" ++ py " : [1, -2.5e3, true, null] , "
                 ++ dq "b" ++ py ": {}, " ++ dq "a" ++ py ": " ++ dq "x\u00e9"
                 ++ py " } ")
  = Return (PyDict [(py "a", PyStr [120; 233]); (py "b", PyDict [])])
  /\ json_loads (py "[1, 2,]") = Raise JSONDecodeError
  /\ json_loads (py "01") = Raise JSONDecodeError
  /\ json_loads (py "-0") = Return (PyInt 0)
  /\ json_loads (py "NaN") = Return (PyFloat (py "NaN"))
  /\ json_loads [] = Raise JSONDecodeError
  /\ json_loads (dq "\ud83d\ude00") = Return (PyStr [0x1F600]).
Proof. vm_compute. repeat split. Qed.

(** ** The UTF-8 codec: encoding undoes decoding *)

(** Boolean tests on integers as propositions, for [lia]. *)
Ltac bool_to_prop :=
  repeat match goal with
  | H : _ && _ = true |- _ => apply andb_true_iff in H; destruct H
  | H : negb _ = true |- _ => apply negb_true_iff in H
  | H : _ && _ = false |- _ => apply andb_false_iff in H; destruct H
  | H : (_ <=? _) = true |- _ => apply Z.leb_le in H
  | H : (_ <=? _) = false |- _ => apply Z.leb_gt in H
  | H : (_ <? _) = true |- _ => apply Z.ltb_lt in H
  | H : (_ <? _) = false |- _ => apply Z.ltb_ge in H
  | H : (_ =? _) = true |- _ => apply Z.eqb_eq in H
  | H : (_ =? _) = false |- _ => apply Z.eqb_neq in H
  end.

Lemma utf8_encode_char_1 (b1 : Z) :
  0 <= b1 <= 0x7F -> utf8_encode_char b1 = Some [b1].
Proof.
  intros H. unfold utf8_encode_char.
  destruct ((0 <=? b1) && (b1 <? 128)) eqn:E; [reflexivity|].
  bool_to_prop; lia.
Qed.

Ltac encode_char_range :=
  match goal with
  | |- context [if ?b then _ else _] =>
    let E := fresh "E" in
    destruct b eqn:E;
    try (exfalso; bool_to_prop; lia)
  end.

Ltac encode_char_bytes :=
  repeat f_equal; Z.to_euclidean_division_equations; lia.

Lemma utf8_encode_char_2 (b1 b2 : Z) :
  0xC2 <= b1 <= 0xDF -> 0x80 <= b2 <= 0xBF ->
  utf8_encode_char (b1 * 64 + b2 - (0xC0 * 64 + 0x80)) = Some [b1; b2].
Proof.
  intros H1 H2. unfold utf8_encode_char.
  repeat encode_char_range; encode_char_bytes.
Qed.

Lemma utf8_encode_char_3 (b1 b2 b3 : Z) :
  0xE0 <= b1 <= 0xEF -> 0x80 <= b2 <= 0xBF -> 0x80 <= b3 <= 0xBF ->
  ~ (b1 = 0xE0 /\ b2 < 0xA0) -> ~ (b1 = 0xED /\ 0x9F < b2) ->
  utf8_encode_char (b1 * 4096 + b2 * 64 + b3 - (0xE0 * 4096 + 0x80 * 64 + 0x80))
  = Some [b1; b2; b3].
Proof.
  intros H1 H2 H3 Hlow Hsur. unfold utf8_encode_char.
  repeat encode_char_range; encode_char_bytes.
Qed.

Lemma utf8_encode_char_4 (b1 b2 b3 b4 : Z) :
  0xF0 <= b1 <= 0xF4 -> 0x80 <= b2 <= 0xBF -> 0x80 <= b3 <= 0xBF ->
  0x80 <= b4 <= 0xBF ->
  ~ (b1 = 0xF0 /\ b2 < 0x90) -> ~ (b1 = 0xF4 /\ 0x8F < b2) ->
  utf8_encode_char (b1 * 262144 + b2 * 4096 + b3 * 64 + b4
                    - (0xF0 * 262144 + 0x80 * 4096 + 0x80 * 64 + 0x80))
  = Some [b1; b2; b3; b4].
Proof.
  intros H1 H2 H3 H4 Hlow Hhigh. unfold utf8_encode_char.
  repeat encode_char_range; encode_char_bytes.
Qed.

Arguments utf8_encode_char : simpl never.

Lemma utf8_decode_spec (n : nat) :
  forall bs s,
    (length bs <= n)%nat -> utf8_decode bs = Some s ->
    utf8_encode s = Some bs /\ (forall c, c ∈ s -> c < 0x80 -> c ∈ bs).
Proof.
  induction n as [|n IH]; intros bs s Hn H.
  - destruct bs; simpl in *; [|lia]. injection H as <-. split; [reflexivity|auto].
  - destruct bs as [|b1 r1]; simpl in H.
    { injection H as <-. split; [reflexivity|auto]. }
    repeat split_match_in H.
    all: match type of H with
         | _ <$> utf8_decode ?r = _ =>
           destruct (utf8_decode r) as [s'|] eqn:E; [|discriminate H];
           apply IH in E; [destruct E as [Henc Hin]|simpl in *; lia]
         end.
    all: simpl in H; injection H as <-; unfold is_continuation in *;
      bool_to_prop; try (exfalso; lia).
    all: split;
      [ simpl;
        first [ rewrite utf8_encode_char_1 by lia
              | rewrite utf8_encode_char_2 by lia
              | rewrite utf8_encode_char_3 by lia
              | rewrite utf8_encode_char_4 by lia ];
        rewrite Henc; reflexivity
      | intros c Hc Hlt; apply elem_of_cons in Hc as [->|Hc];
        [ try lia; left | repeat right; auto ] ].
Qed.

Example utf8_examples :
  utf8_decode [0x43; 0x56; 0xC3; 0xA9; 0xE2; 0x82; 0xAC; 0xF0; 0x9F; 0x98; 0x80]
  = Some [0x43; 0x56; 0xE9; 0x20AC; 0x1F600]
  /\ utf8_decode [0xC0; 0x80] = None
  /\ utf8_decode [0xED; 0xA0; 0x80] = None
  /\ utf8_decode [0xF4; 0x90; 0x80; 0x80] = None
  /\ utf8_decode [0xE2; 0x82] = None
  /\ translate_newlines [97; 13; 10; 13; 13; 10; 98; 13] = [97; 10; 10; 10; 98; 10].
Proof. repeat split. Qed.

Lemma utf8_decode_encode (bs s : pystr) :
  utf8_decode bs = Some s -> utf8_encode s = Some bs.
Proof. intros H. apply (utf8_decode_spec (length bs)); [lia|exact H]. Qed.

Lemma utf8_decode_ascii_from_bytes (bs s : pystr) (c : Z) :
  utf8_decode bs = Some s -> c ∈ s -> c < 0x80 -> c ∈ bs.
Proof. intros H. apply (utf8_decode_spec (length bs)); [lia|exact H]. Qed.

Lemma translate_newlines_no_cr (s : pystr) :
  13 ∉ s -> translate_newlines s = s.
Proof.
  induction s as [|c s IH]; [reflexivity|].
  rewrite not_elem_of_cons. intros [Hc Hs]. simpl.
  destruct (c =? 13) eqn:E; [apply Z.eqb_eq in E; congruence|].
  rewrite IH by assumption. reflexivity.
Qed.

(** ** load_cv_text *)

Lemma exists_true_lookup (w : World) (p : Path) :
  exists_ w p = true <-> is_Some (fs w !! path_str p).
Proof.
  unfold exists_. destruct (fs w !! path_str p); split; intros H;
    try reflexivity; try discriminate; eauto.
  destruct H; discriminate.
Qed.

Lemma for_pages_concat (pages : list PageObject) (ts : list pystr) :
  forall text,
    map extract_text pages = map Return ts ->
    for_pages pages text = Return (text ++ concat ts).
Proof.
  revert ts; induction pages as [|page pages IH]; intros [|t ts] text H;
    simpl in H; try discriminate.
  - simpl. rewrite app_nil_r. reflexivity.
  - injection H as Ht Hts. simpl. rewrite Ht. simpl.
    rewrite (IH ts) by assumption. rewrite <- app_assoc. reflexivity.
Qed.

(** C5. A path that does not exist makes [load_cv_text] raise the domain
    error whose message is "CV file not found: " followed by the path,
    whatever the extension of the path is; in particular the error is never
    the one of the format check. *)
Theorem load_cv_text_not_found (w : World) (cv_path : Path) :
  exists_ w cv_path = false ->
  load_cv_text w cv_path
  = Raise (CVExtractorError (py "CV file not found: " ++ path_str cv_path))
  /\ load_cv_text w cv_path
     <> Raise (CVExtractorError (py "Unsupported file format: "
                                  ++ suffix cv_path ++ py ". Use .txt or .pdf")).
Proof.
  intros H. unfold load_cv_text. rewrite H. simpl negb. cbv iota.
  split; [reflexivity|discriminate].
Qed.

Lemma load_cv_text_not_found_witness :
  exists_ (files_world [(py "cv.txt", File [])]) (relative "notes.docx") = false
  /\ load_cv_text (files_world [(py "cv.txt", File [])]) (relative "notes.docx")
     = Raise (CVExtractorError (py "CV file not found: notes.docx")).
Proof.
  split; [reflexivity|].
  apply (load_cv_text_not_found
           (files_world [(py "cv.txt", File [])]) (relative "notes.docx")).
  reflexivity.
Defined.

(** C6. An existing path whose suffix, lowered, is neither [.txt] nor
    [.pdf] (an empty suffix included) makes [load_cv_text] raise the domain
    error "Unsupported file format: <suffix>. Use .txt or .pdf". The
    comparison ignores case: [.TXT] and [.Pdf] lower to [.txt] and [.pdf],
    an existing path whose lowered suffix is [.txt] is read as text, and
    one whose lowered suffix is [.pdf] goes through the PDF branch. *)
Theorem load_cv_text_unsupported_format (w : World) (cv_path : Path) :
  exists_ w cv_path = true ->
  lower (suffix cv_path) <> py ".txt" ->
  lower (suffix cv_path) <> py ".pdf" ->
  load_cv_text w cv_path
  = Raise (CVExtractorError (py "Unsupported file format: " ++ suffix cv_path
                                ++ py ". Use .txt or .pdf"))
  /\ lower (py ".TXT") = py ".txt"
  /\ lower (py ".Pdf") = py ".pdf"
  /\ (forall txt_path,
        exists_ w txt_path = true ->
        lower (suffix txt_path) = py ".txt" ->
        load_cv_text w txt_path = read_text w txt_path)
  /\ (forall pdf_path,
        exists_ w pdf_path = true ->
        lower (suffix pdf_path) = py ".pdf" ->
        load_cv_text w pdf_path
        = except_ImportError
            (pdf_try_body w pdf_path)
            (Raise (CVExtractorError
                      (py "PyPDF2 not installed. Install it with: pip install PyPDF2")))).
Proof.
  intros Hcv Hnt Hnp.
  split; [|split; [reflexivity|split; [reflexivity|split]]].
  - unfold load_cv_text. rewrite Hcv. simpl negb. cbv iota.
    apply pystr_eqb_neq in Hnt, Hnp. rewrite Hnt, Hnp. reflexivity.
  - intros txt_path Hex Hsuffix. unfold load_cv_text.
    rewrite Hex, Hsuffix. reflexivity.
  - intros pdf_path Hex Hsuffix. unfold load_cv_text.
    rewrite Hex, Hsuffix. reflexivity.
Qed.

Lemma load_cv_text_unsupported_format_witness :
  suffix (relative "README") = []
  /\ suffix (relative "CV.TXT") = py ".TXT"
  /\ suffix (relative "cv.Pdf") = py ".Pdf"
  /\ load_cv_text formats_world (relative "README")
     = Raise (CVExtractorError (py "Unsupported file format: . Use .txt or .pdf"))
  /\ load_cv_text formats_world (relative "CV.TXT") = Return (py "hi")
  /\ load_cv_text formats_world (relative "cv.Pdf")
     = Return (py "Jude. Python, Go").
Proof.
  pose proof (load_cv_text_unsupported_format
                formats_world (relative "README")
                eq_refl ltac:(discriminate) ltac:(discriminate))
    as (H1 & _ & _ & H2 & H3).
  refine (conj eq_refl (conj eq_refl (conj eq_refl (conj H1 (conj _ _))))).
  - rewrite (H2 (relative "CV.TXT") eq_refl eq_refl). reflexivity.
  - rewrite (H3 (relative "cv.Pdf") eq_refl eq_refl). reflexivity.
Defined.

(** C2, as the spec states it, fails: a [.txt] file holding the four bytes
    [a CR LF b] is returned as the three characters [a LF b], whose UTF-8
    encoding is not the content of the file. Besides, a [.txt] file that is
    not valid UTF-8 and a directory named [cv.txt] make [load_cv_text]
    raise instead of return. *)
Lemma load_cv_text_txt_not_verbatim :
  exists_ crlf_world (relative "cv.txt") = true
  /\ suffix (relative "cv.txt") = py ".txt"
  /\ fs crlf_world !! path_str (relative "cv.txt")
     = Some (File [97; 13; 10; 98])
  /\ utf8_decode [97; 13; 10; 98] = Some [97; 13; 10; 98]
  /\ load_cv_text crlf_world (relative "cv.txt") = Return [97; 10; 98]
  /\ utf8_encode [97; 10; 98] <> Some [97; 13; 10; 98]
  /\ load_cv_text (files_world [(py "cv.txt", File [0xFF; 0xFE])])
                  (relative "cv.txt")
     = Raise UnicodeDecodeError
  /\ load_cv_text (files_world [(py "cv.txt", Directory)]) (relative "cv.txt")
     = Raise IsADirectoryError
  /\ ~ (forall (w : World) (cv_path : Path) (bs : pybytes),
          fs w !! path_str cv_path = Some (File bs) ->
          lower (suffix cv_path) = py ".txt" ->
          exists s, load_cv_text w cv_path = Return s
                    /\ utf8_encode s = Some bs).
Proof.
  repeat split; try reflexivity; try discriminate.
  intros claim.
  destruct (claim crlf_world (relative "cv.txt") [97; 13; 10; 98]
              eq_refl eq_refl) as (s & Hs & Henc).
  vm_compute in Hs. injection Hs as <-. discriminate Henc.
Qed.

(** C2, amended. For an existing regular file whose lowered suffix is
    [.txt] and whose content is valid UTF-8, [load_cv_text] returns the
    decoded content with universal newlines applied. When the content holds
    no CR byte, that is the decoded content itself, and encoding it as UTF-8
    gives back the bytes of the file. *)
Theorem load_cv_text_txt_decoded
    (w : World) (cv_path : Path) (bs : pybytes) (s : pystr) :
  fs w !! path_str cv_path = Some (File bs) ->
  lower (suffix cv_path) = py ".txt" ->
  utf8_decode bs = Some s ->
  load_cv_text w cv_path = Return (translate_newlines s)
  /\ (13 ∉ bs ->
      load_cv_text w cv_path = Return s /\ utf8_encode s = Some bs).
Proof.
  intros Hfile Hsuffix Hdec.
  assert (Hload : load_cv_text w cv_path = Return (translate_newlines s)).
  { unfold load_cv_text, exists_. rewrite Hfile, Hsuffix. simpl.
    unfold read_text, read_bytes. rewrite Hfile. simpl. rewrite Hdec.
    reflexivity. }
  split; [exact Hload|]. intros Hcr.
  rewrite Hload, translate_newlines_no_cr.
  - split; [reflexivity|]. apply utf8_decode_encode. exact Hdec.
  - intros Hin. apply Hcr.
    apply (utf8_decode_ascii_from_bytes bs s); [exact Hdec|exact Hin|lia].
Qed.

Lemma load_cv_text_txt_decoded_witness :
  load_cv_text utf8_world (relative "cv.TXT") = Return [0xE9; 10; 0x20AC]
  /\ utf8_encode [0xE9; 10; 0x20AC] = Some [0xC3; 0xA9; 10; 0xE2; 0x82; 0xAC].
Proof.
  destruct (load_cv_text_txt_decoded utf8_world (relative "cv.TXT")
              [0xC3; 0xA9; 10; 0xE2; 0x82; 0xAC] [0xE9; 10; 0x20AC]
              eq_refl eq_refl eq_refl) as [_ H].
  apply H. vm_compute. intros Hin.
  repeat (apply elem_of_cons in Hin as [Hin|Hin]; [discriminate Hin|]).
  inversion Hin.
Defined.

(** C8. For an existing file whose lowered suffix is [.pdf], with PyPDF2
    installed and its reader giving pages whose extracted texts are
    [t1 .. tn] in document order, [load_cv_text] returns the concatenation
    [t1 ++ .. ++ tn], nothing in between. *)
Theorem load_cv_text_pdf
    (w : World) (cv_path : Path) (bs : pybytes) (lib : PyPDF2_module)
    (pages : list PageObject) (ts : list pystr) :
  fs w !! path_str cv_path = Some (File bs) ->
  lower (suffix cv_path) = py ".pdf" ->
  PyPDF2 w = Some lib ->
  PdfReader_pages lib bs = Return pages ->
  map extract_text pages = map Return ts ->
  load_cv_text w cv_path = Return (concat ts).
Proof.
  intros Hfile Hsuffix Hlib Hpages Hts.
  unfold load_cv_text, exists_. rewrite Hfile, Hsuffix. simpl.
  unfold pdf_try_body, import_PyPDF2, read_bytes.
  rewrite Hlib, Hfile. simpl. rewrite Hpages. simpl.
  rewrite (for_pages_concat pages ts) by exact Hts. reflexivity.
Qed.

Lemma load_cv_text_pdf_witness :
  load_cv_text pdf_world (relative "bolu.pdf") = Return (py "Jude. Python, Go").
Proof.
  exact (load_cv_text_pdf pdf_world (relative "bolu.pdf") [37; 80; 68; 70] two_pages
           _ [py "Jude. "; py "Python, Go"]
           eq_refl eq_refl eq_refl eq_refl eq_refl).
Defined.

(** ** load_api_key *)

Lemma set_as_environment_variables_keeps
    (pairs : list (pystr * option pystr)) :
  forall (env : gmap pystr pystr) (key value : pystr),
    env !! key = Some value ->
    set_as_environment_variables env pairs !! key = Some value.
Proof.
  unfold set_as_environment_variables.
  induction pairs as [|[k v] pairs IH]; intros env key value H; simpl.
  - exact H.
  - apply IH. destruct (env !! k) eqn:Ek; [exact H|].
    destruct v as [v|]; [|exact H].
    rewrite lookup_insert_ne; [exact H|]. intros ->. congruence.
Qed.

Lemma load_dotenv_keeps (w : World) (key value : pystr) :
  getenv w key = Some value -> getenv (load_dotenv w) key = Some value.
Proof. apply set_as_environment_variables_keeps. Qed.

(** C7. When, once the [.env] file has been loaded, [ANTHROPIC_API_KEY] is
    unset or is the empty string, [load_api_key] raises the domain error
    "Missing ANTHROPIC_API_KEY in environment. Set it in your .env file.":
    the message names the variable and says where to set it. *)
Theorem load_api_key_missing (w : World) :
  getenv (load_dotenv w) (py "ANTHROPIC_API_KEY") = None
  \/ getenv (load_dotenv w) (py "ANTHROPIC_API_KEY") = Some [] ->
  exists msg,
    load_api_key w = (load_dotenv w, Raise (CVExtractorError msg))
    /\ msg = py "Missing ANTHROPIC_API_KEY in environment. Set it in your .env file."
    /\ contains (py "ANTHROPIC_API_KEY") msg = true
    /\ contains (py "Set it in your .env file") msg = true.
Proof.
  intros H. eexists. unfold load_api_key.
  destruct H as [-> | ->]; (split; [reflexivity|]);
    (split; [reflexivity|]); split; vm_compute; reflexivity.
Qed.

Lemma load_api_key_missing_witness :
  getenv (load_dotenv empty_key_world) (py "ANTHROPIC_API_KEY") = Some []
  /\ snd (load_api_key empty_key_world)
     = Raise (CVExtractorError
                (py "Missing ANTHROPIC_API_KEY in environment. Set it in your .env file.")).
Proof.
  split; [reflexivity|].
  destruct (load_api_key_missing empty_key_world (or_intror eq_refl))
    as (msg & -> & -> & _).
  reflexivity.
Defined.

(** C10. When [ANTHROPIC_API_KEY] is set to a non-empty string, in the
    process environment or after the [.env] file has been loaded,
    [load_api_key] returns that very string: nothing is trimmed or checked,
    so a value made of white space is returned as it is. *)
Theorem load_api_key_verbatim (w : World) (api_key : pystr) :
  getenv w (py "ANTHROPIC_API_KEY") = Some api_key
  \/ getenv (load_dotenv w) (py "ANTHROPIC_API_KEY") = Some api_key ->
  api_key <> [] ->
  load_api_key w = (load_dotenv w, Return api_key).
Proof.
  intros H Hne.
  assert (Hget : getenv (load_dotenv w) (py "ANTHROPIC_API_KEY") = Some api_key).
  { destruct H as [H|H]; [apply load_dotenv_keeps|]; exact H. }
  unfold load_api_key. rewrite Hget.
  destruct api_key; [congruence|reflexivity].
Qed.

Lemma load_api_key_verbatim_witness :
  getenv blank_key_world (py "ANTHROPIC_API_KEY") = Some (py " ")
  /\ snd (load_api_key blank_key_world) = Return (py " ").
Proof.
  split; [reflexivity|].
  rewrite (load_api_key_verbatim blank_key_world (py " ")
             (or_introl eq_refl) ltac:(discriminate)).
  reflexivity.
Defined.

(** ** extract_cv_with_llm and extract_skills *)

(** C9. When the API answers with a message whose content list is empty,
    [extract_cv_with_llm] raises [IndexError] at [message.content[0]]: the
    outcome is neither a [CVExtractorError] nor a returned value such as
    the [raw_response] fallback. The same holds for [extract_skills]. *)
Theorem extract_cv_with_llm_empty_content
    (w : World) (cv_text api_key prompt : pystr) (message : Message) :
  messages_create w (create_request cv_text api_key prompt) = Return message ->
  message_content message = [] ->
  extract_cv_with_llm w cv_text api_key prompt = Raise IndexError
  /\ (forall msg, extract_cv_with_llm w cv_text api_key prompt
                  <> Raise (CVExtractorError msg))
  /\ (forall v, extract_cv_with_llm w cv_text api_key prompt <> Return v).
Proof.
  intros Hcreate Hcontent.
  assert (H : extract_cv_with_llm w cv_text api_key prompt = Raise IndexError).
  { unfold extract_cv_with_llm. rewrite Hcreate. simpl.
    unfold first_block. rewrite Hcontent. reflexivity. }
  rewrite H. repeat split; intros; discriminate.
Qed.

Lemma extract_cv_with_llm_empty_content_witness :
  extract_skills (files_world []) (py "Proficient in Go") (py "sk-ant")
  = Raise IndexError.
Proof.
  apply (extract_cv_with_llm_empty_content
           (files_world []) (py "Proficient in Go") (py "sk-ant") skills_prompt
           {| message_content := [] |} eq_refl eq_refl).
Defined.

(** *** A response that starts with a text block *)

Section TextResponse.

Variable w : World.
Variables cv_text api_key : pystr.
Variable message : Message.
Variable text : pystr.
Variable blocks : list ContentBlock.

Hypothesis client_answers :
  messages_create w (create_request cv_text api_key skills_prompt)
  = Return message.
Hypothesis text_comes_first :
  message_content message = TextBlock text :: blocks.

(** The two handled outcomes of the decoder decide the result. *)
Lemma extract_skills_text :
  extract_skills w cv_text api_key
  = except_JSONDecodeError
      (json_loads text)
      (Return (PyDict [(py "raw_response", PyStr text)])).
Proof.
  unfold extract_skills, extract_cv_with_llm.
  rewrite client_answers. simpl.
  unfold first_block. rewrite text_comes_first. reflexivity.
Qed.

(** [extract_skills] returns, and what it returns is the parsed value or
    the fallback mapping. *)
Lemma extract_skills_returns :
  exists v,
    extract_skills w cv_text api_key = Return v
    /\ (json_loads text = Return v
        \/ json_loads text = Raise JSONDecodeError
           /\ v = PyDict [(py "raw_response", PyStr text)]).
Proof.
  rewrite extract_skills_text.
  destruct (json_loads_total text) as [[v Hv] | Hv]; rewrite Hv; simpl; eauto.
Qed.

(** C3. When the text of the response parses as JSON, [extract_skills]
    returns the parsed value as it is. Nothing checks for the three
    expected keys: the response of the spec's scenario gives the mapping
    with [technical_skills] holding [Python] and two empty lists, and the
    response [{}] gives the empty mapping. *)
Theorem extract_skills_passthrough (v : pyvalue) :
  json_loads text = Return v ->
  extract_skills w cv_text api_key = Return v
  /\ extract_skills (response_world python_skills_response) cv_text api_key
     = Return (PyDict [(py "technical_skills", PyList [PyStr (py "Python")]);
                       (py "professional_skills", PyList []);
                       (py "domain_skills", PyList [])])
  /\ extract_skills (response_world (py "{}")) cv_text api_key
     = Return (PyDict []).
Proof.
  intros Hjson. split; [|split].
  - rewrite extract_skills_text, Hjson. reflexivity.
  - vm_compute. reflexivity.
  - vm_compute. reflexivity.
Qed.


End TextResponse.

Lemma extract_skills_passthrough_witness :
  json_loads (py "{" ++ dq "languages" ++ py ": [" ++ dq "Go" ++ py "]}")
  = Return (PyDict [(py "languages", PyList [PyStr (py "Go")])])
  /\ extract_skills
       (response_world (py "{" ++ dq "languages" ++ py ": [" ++ dq "Go" ++ py "]}"))
       (py "Proficient in Go") (py "sk-ant")
     = Return (PyDict [(py "languages", PyList [PyStr (py "Go")])]).
Proof.
  split; [reflexivity|].
  apply (extract_skills_passthrough
           (response_world (py "{" ++ dq "languages" ++ py ": [" ++ dq "Go" ++ py "]}"))
           (py "Proficient in Go") (py "sk-ant")
           {| message_content :=
                [TextBlock (py "{" ++ dq "languages" ++ py ": [" ++ dq "Go" ++ py "]}")] |}
           _ [] eq_refl eq_refl _ eq_refl).
Defined.


(** C1, where the code departs from it. When the text of the response is
    the JSON array [[]], [json.loads] succeeds and [extract_skills] returns
    the parsed list, which is not a mapping, although both functions are
    declared to return [dict[str, Any]]. The same happens for a JSON
    string, number, [true], [false] or [null] at the top level. *)
Theorem extract_skills_top_level_array (cv_text api_key : pystr) :
  extract_skills (response_world (py "[]")) cv_text api_key = Return (PyList [])
  /\ is_dict (PyList []) = false
  /\ extract_skills (response_world (dq "Python")) cv_text api_key
     = Return (PyStr (py "Python"))
  /\ extract_skills (response_world (py "null")) cv_text api_key = Return PyNone.
Proof. repeat split. Qed.

(** * Further properties *)

(** Membership of a number in an explicit list of numbers, refuted. *)
Ltac not_in_list :=
  let H := fresh "H" in
  intros H; vm_compute in H;
  repeat (apply elem_of_cons in H as [H|H]; [discriminate H|]);
  inversion H.

(** ** load_cv_text: the PDF branch *)

Lemma load_cv_text_pdf_branch (w : World) (cv_path : Path) :
  exists_ w cv_path = true ->
  lower (suffix cv_path) = py ".pdf" ->
  load_cv_text w cv_path
  = except_ImportError (pdf_try_body w cv_path)
      (Raise (CVExtractorError
                (py "PyPDF2 not installed. Install it with: pip install PyPDF2"))).
Proof.
  intros Hex Hsuffix. unfold load_cv_text. rewrite Hex, Hsuffix. reflexivity.
Qed.

(** X1. For an existing path whose lowered suffix is [.pdf], when PyPDF2 is
    not installed [load_cv_text] raises the domain error "PyPDF2 not
    installed. Install it with: pip install PyPDF2". The import comes
    before the file is opened, so this holds for a directory too. *)
Theorem load_cv_text_pdf_missing_dependency (w : World) (cv_path : Path) :
  exists_ w cv_path = true ->
  lower (suffix cv_path) = py ".pdf" ->
  PyPDF2 w = None ->
  load_cv_text w cv_path
  = Raise (CVExtractorError
             (py "PyPDF2 not installed. Install it with: pip install PyPDF2")).
Proof.
  intros Hex Hsuffix Hlib.
  rewrite load_cv_text_pdf_branch by assumption.
  unfold pdf_try_body, import_PyPDF2. rewrite Hlib. reflexivity.
Qed.

Lemma load_cv_text_pdf_missing_dependency_witness :
  load_cv_text (files_world [(py "scans.pdf", Directory)]) (relative "scans.pdf")
  = Raise (CVExtractorError
             (py "PyPDF2 not installed. Install it with: pip install PyPDF2")).
Proof.
  apply (load_cv_text_pdf_missing_dependency
           (files_world [(py "scans.pdf", Directory)]) (relative "scans.pdf"));
    reflexivity.
Defined.

Lemma for_pages_first_error (before after : list PageObject) (bad : PageObject)
    (ts : list pystr) (e : exn) :
  forall text,
    map extract_text before = map Return ts ->
    extract_text bad = Raise e ->
    for_pages (before ++ bad :: after) text = Raise e.
Proof.
  revert ts; induction before as [|page before IH]; intros [|t ts] text H Hbad;
    simpl in H; try discriminate.
  - simpl. rewrite Hbad. reflexivity.
  - injection H as Ht Hts. simpl. rewrite Ht. simpl. apply (IH ts); assumption.
Qed.

(** X2. When a page of the PDF fails to give its text, after pages that
    gave theirs, [load_cv_text] raises the error of that page and the text
    gathered so far is lost. The [try] block covers the whole extraction:
    an [ImportError] raised by a page is reported as "PyPDF2 not
    installed", although PyPDF2 is installed; any other error passes
    through unchanged. *)
Theorem load_cv_text_pdf_page_error
    (w : World) (cv_path : Path) (bs : pybytes) (lib : PyPDF2_module)
    (before after : list PageObject) (bad : PageObject) (ts : list pystr)
    (e : exn) :
  fs w !! path_str cv_path = Some (File bs) ->
  lower (suffix cv_path) = py ".pdf" ->
  PyPDF2 w = Some lib ->
  PdfReader_pages lib bs = Return (before ++ bad :: after) ->
  map extract_text before = map Return ts ->
  extract_text bad = Raise e ->
  load_cv_text w cv_path
  = match e with
    | ImportError =>
      Raise (CVExtractorError
               (py "PyPDF2 not installed. Install it with: pip install PyPDF2"))
    | _ => Raise e
    end.
Proof.
  intros Hfile Hsuffix Hlib Hpages Hts Hbad.
  rewrite load_cv_text_pdf_branch; [|unfold exists_; rewrite Hfile; reflexivity|assumption].
  unfold pdf_try_body, import_PyPDF2, read_bytes.
  rewrite Hlib, Hfile. simpl. rewrite Hpages. simpl.
  rewrite (for_pages_first_error before after bad ts e) by assumption.
  destruct e; reflexivity.
Qed.

Lemma load_cv_text_pdf_page_error_witness :
  load_cv_text broken_pdf_world (relative "bolu.pdf")
  = Raise (LibraryError (py "PdfReadError")).
Proof.
  exact (load_cv_text_pdf_page_error
           broken_pdf_world (relative "bolu.pdf") [37; 80; 68; 70]
           broken_second_page
           [ {| extract_text := Return (py "Jude. ") |} ]
           [ {| extract_text := Return (py "Python, Go") |} ]
           {| extract_text := Raise (LibraryError (py "PdfReadError")) |}
           [py "Jude. "] (LibraryError (py "PdfReadError"))
           eq_refl eq_refl eq_refl eq_refl eq_refl eq_refl).
Defined.

(** ** load_cv_text: the text branch *)

Lemma translate_newlines_drops_cr (n : nat) :
  forall s, (length s <= n)%nat -> 13 ∉ translate_newlines s.
Proof.
  induction n as [|n IH]; intros s Hn.
  - destruct s; simpl in *; [apply not_elem_of_nil|lia].
  - destruct s as [|c s]; simpl; [apply not_elem_of_nil|].
    destruct (c =? 13) eqn:Ec.
    + destruct s as [|c' s]; [|destruct (c' =? 10)];
        repeat (apply not_elem_of_cons; split; [discriminate|]);
        try apply not_elem_of_nil; apply IH; simpl in *; lia.
    + apply not_elem_of_cons; split.
      * apply Z.eqb_neq in Ec. congruence.
      * apply IH. simpl in *. lia.
Qed.

(** X3. The text [load_cv_text] returns for a [.txt] file never holds a
    carriage return: reading in text mode has turned every one into a line
    feed. *)
Theorem load_cv_text_txt_no_carriage_return
    (w : World) (cv_path : Path) (s : pystr) :
  lower (suffix cv_path) = py ".txt" ->
  load_cv_text w cv_path = Return s ->
  13 ∉ s.
Proof.
  intros Hsuffix. unfold load_cv_text.
  destruct (exists_ w cv_path); simpl; [|discriminate].
  rewrite Hsuffix. simpl. unfold read_text.
  destruct (read_bytes w cv_path) as [bs|]; simpl; [|discriminate].
  destruct (utf8_decode bs) as [s'|]; [|discriminate].
  intros [= <-]. apply (translate_newlines_drops_cr (length s')). lia.
Qed.

Lemma load_cv_text_txt_no_carriage_return_witness :
  load_cv_text crlf_world (relative "cv.txt") = Return [97; 10; 98]
  /\ 13 ∉ [97; 10; 98].
Proof.
  split; [reflexivity|].
  apply (load_cv_text_txt_no_carriage_return crlf_world (relative "cv.txt"));
    reflexivity.
Defined.

(** Decide a boolean test of the decoder from the range of the code point. *)
Ltac decode_test :=
  match goal with
  | |- context [if ?b then _ else _] =>
    let E := fresh "E" in
    destruct b eqn:E;
    try (exfalso; unfold is_continuation in *; bool_to_prop;
         Z.to_euclidean_division_equations; lia)
  end.

Lemma utf8_decode_encode_char (c : Z) (bc : pybytes) (rest : pybytes) :
  utf8_encode_char c = Some bc ->
  utf8_decode (bc ++ rest) = cons c <$> utf8_decode rest.
Proof.
  unfold utf8_encode_char. intros H.
  destruct ((0 <=? c) && (c <? 128)) eqn:E1.
  { injection H as <-. simpl. bool_to_prop. decode_test. reflexivity. }
  destruct ((128 <=? c) && (c <? 2048)) eqn:E2.
  { injection H as <-. bool_to_prop; simpl; repeat decode_test;
      do 2 f_equal; Z.to_euclidean_division_equations; lia. }
  destruct ((2048 <=? c) && (c <? 65536)) eqn:E3.
  { destruct ((55296 <=? c) && (c <=? 57343)) eqn:E4; [discriminate|].
    injection H as <-. bool_to_prop; simpl; repeat decode_test;
      do 2 f_equal; Z.to_euclidean_division_equations; lia. }
  destruct ((65536 <=? c) && (c <=? 1114111)) eqn:E4; [|discriminate].
  injection H as <-. bool_to_prop; simpl; repeat decode_test;
    do 2 f_equal; Z.to_euclidean_division_equations; lia.
Qed.

Lemma utf8_encode_decode (s : pystr) :
  forall bs, utf8_encode s = Some bs -> utf8_decode bs = Some s.
Proof.
  induction s as [|c s IH]; intros bs H; simpl in H.
  - injection H as <-. reflexivity.
  - destruct (utf8_encode_char c) as [bc|] eqn:Ec; [|discriminate].
    destruct (utf8_encode s) as [bs'|]; [|discriminate].
    injection H as <-.
    rewrite (utf8_decode_encode_char c bc bs' Ec), (IH bs' eq_refl).
    reflexivity.
Qed.

(** X4. A text without carriage returns that was saved as UTF-8 in a [.txt]
    file is loaded back exactly: if [bs] is the UTF-8 encoding of [s],
    [load_cv_text] on a [.txt] file holding [bs] returns [s]. *)
Theorem load_cv_text_reads_back_utf8
    (w : World) (cv_path : Path) (s : pystr) (bs : pybytes) :
  utf8_encode s = Some bs ->
  13 ∉ s ->
  fs w !! path_str cv_path = Some (File bs) ->
  lower (suffix cv_path) = py ".txt" ->
  load_cv_text w cv_path = Return s.
Proof.
  intros Henc Hcr Hfile Hsuffix.
  unfold load_cv_text, exists_. rewrite Hfile, Hsuffix. simpl.
  unfold read_text, read_bytes. rewrite Hfile. simpl.
  rewrite (utf8_encode_decode s bs Henc), translate_newlines_no_cr by exact Hcr.
  reflexivity.
Qed.

Lemma load_cv_text_reads_back_utf8_witness :
  utf8_encode [0xE9; 10; 0x20AC] = Some [0xC3; 0xA9; 10; 0xE2; 0x82; 0xAC]
  /\ load_cv_text utf8_world (relative "cv.TXT") = Return [0xE9; 10; 0x20AC].
Proof.
  split; [reflexivity|].
  apply (load_cv_text_reads_back_utf8 utf8_world (relative "cv.TXT")
           [0xE9; 10; 0x20AC] [0xC3; 0xA9; 10; 0xE2; 0x82; 0xAC]);
    try reflexivity.
  not_in_list.
Defined.

(** ** load_cv_text: which part of the name is the extension *)

Lemma suffix_dotfile (r : pystr) (dirs : list pystr) (ext : pystr) :
  46 ∉ ext -> suffix (mkPath r (dirs ++ [46 :: ext])) = [].
Proof.
  intros Hdot. unfold suffix, name. simpl tail.
  rewrite last_snoc. simpl default. unfold rfind.
  change (rfind_from 46 (46 :: ext) 0 (-1))
    with (rfind_from 46 ext (0 + 1) (if 46 =? 46 then 0 else -1)).
  rewrite Z.eqb_refl, rfind_from_absent by assumption. reflexivity.
Qed.

(** X5. A name that is only a dot and an extension, such as [.txt] or
    [.pdf], has no suffix for pathlib: [load_cv_text] on such an existing
    path raises "Unsupported file format: . Use .txt or .pdf", with an
    empty suffix in the message. *)
Theorem load_cv_text_dotfile_unsupported
    (w : World) (r : pystr) (dirs : list pystr) (ext : pystr) :
  exists_ w (mkPath r (dirs ++ [46 :: ext])) = true ->
  46 ∉ ext ->
  load_cv_text w (mkPath r (dirs ++ [46 :: ext]))
  = Raise (CVExtractorError (py "Unsupported file format: . Use .txt or .pdf")).
Proof.
  intros Hex Hdot. unfold load_cv_text.
  rewrite Hex, suffix_dotfile by assumption. reflexivity.
Qed.

Lemma load_cv_text_dotfile_unsupported_witness :
  load_cv_text (files_world [(py ".txt", File [104; 105])]) (relative ".txt")
  = Raise (CVExtractorError (py "Unsupported file format: . Use .txt or .pdf")).
Proof.
  apply (load_cv_text_dotfile_unsupported
           (files_world [(py ".txt", File [104; 105])]) [] [] (py "txt"));
    [reflexivity|not_in_list].
Defined.

(** X6. Only what follows the last dot of the final component counts. For
    an existing path whose final component is a non-empty stem, a dot and a
    non-empty extension without a dot, [load_cv_text] reads text when the
    lowered extension is [txt], goes through the PDF branch when it is
    [pdf], and otherwise raises "Unsupported file format" with that
    extension, whatever dots the stem holds. *)
Theorem load_cv_text_last_extension
    (w : World) (r : pystr) (dirs : list pystr) (stem ext : pystr) :
  let cv_path := mkPath r (dirs ++ [stem ++ 46 :: ext]) in
  exists_ w cv_path = true ->
  stem <> [] -> ext <> [] -> 46 ∉ ext ->
  (lower ext = py "txt" -> load_cv_text w cv_path = read_text w cv_path)
  /\ (lower ext = py "pdf" ->
      load_cv_text w cv_path
      = except_ImportError (pdf_try_body w cv_path)
          (Raise (CVExtractorError
                    (py "PyPDF2 not installed. Install it with: pip install PyPDF2"))))
  /\ (lower ext <> py "txt" -> lower ext <> py "pdf" ->
      load_cv_text w cv_path
      = Raise (CVExtractorError (py "Unsupported file format: ." ++ ext
                                    ++ py ". Use .txt or .pdf"))).
Proof.
  intros cv_path Hex Hstem Hext Hdot.
  assert (Hsuffix : suffix cv_path = 46 :: ext)
    by (apply suffix_stem_ext; assumption).
  unfold load_cv_text. rewrite Hex, Hsuffix. simpl negb. cbv iota.
  change (lower (46 :: ext)) with (46 :: lower ext).
  repeat split.
  - intros ->. reflexivity.
  - intros ->. reflexivity.
  - intros Ht Hp.
    assert (pystr_eqb (46 :: lower ext) (py ".txt") = false) as ->.
    { apply pystr_eqb_neq. intros [= H]. apply Ht. exact H. }
    assert (pystr_eqb (46 :: lower ext) (py ".pdf") = false) as ->.
    { apply pystr_eqb_neq. intros [= H]. apply Hp. exact H. }
    reflexivity.
Qed.

Lemma load_cv_text_last_extension_witness :
  load_cv_text (files_world [(py "cv.pdf.TXT", File [104; 105])])
               (relative "cv.pdf.TXT")
  = Return (py "hi").
Proof.
  destruct (load_cv_text_last_extension
              (files_world [(py "cv.pdf.TXT", File [104; 105])])
              [] [] (py "cv.pdf") (py "TXT")
              eq_refl ltac:(discriminate) ltac:(discriminate)
              ltac:(not_in_list)) as [H _].
  exact (H eq_refl).
Defined.

(** ** load_api_key and the environment *)

Lemma load_api_key_world (w : World) : fst (load_api_key w) = load_dotenv w.
Proof.
  unfold load_api_key.
  destruct (getenv (load_dotenv w) _) as [[|? ?]|]; reflexivity.
Qed.

(** X7. [load_api_key] never changes a variable that is already set in the
    process environment, whatever the [.env] file says, and it touches
    nothing but the environment. *)
Theorem load_api_key_keeps_environment (w : World) (key value : pystr) :
  getenv w key = Some value ->
  getenv (fst (load_api_key w)) key = Some value
  /\ fs (fst (load_api_key w)) = fs w
  /\ PyPDF2 (fst (load_api_key w)) = PyPDF2 w
  /\ dotenv (fst (load_api_key w)) = dotenv w
  /\ messages_create (fst (load_api_key w)) = messages_create w.
Proof.
  intros H. rewrite load_api_key_world.
  split; [apply load_dotenv_keeps; exact H|]. repeat split.
Qed.

Lemma load_api_key_keeps_environment_witness :
  getenv dotenv_key_world (py "HOME") = Some (py "/root")
  /\ In (py "HOME", Some (py "/tmp")) (dotenv dotenv_key_world)
  /\ getenv (fst (load_api_key dotenv_key_world)) (py "HOME") = Some (py "/root").
Proof.
  split; [reflexivity|]. split; [left; reflexivity|].
  exact (proj1 (load_api_key_keeps_environment
                  dotenv_key_world (py "HOME") (py "/root") eq_refl)).
Defined.

Lemma set_as_environment_variables_unset
    (pairs : list (pystr * option pystr)) (key : pystr) :
  forall env : gmap pystr pystr,
    env !! key = None ->
    (forall kv, kv ∈ pairs -> fst kv = key -> snd kv = None) ->
    set_as_environment_variables env pairs !! key = None.
Proof.
  unfold set_as_environment_variables.
  induction pairs as [|[k v] pairs IH]; intros env Henv Hpairs; simpl.
  - exact Henv.
  - apply IH.
    + destruct (env !! k) eqn:Ek; [exact Henv|].
      destruct v as [v|]; [|exact Henv].
      rewrite lookup_insert_ne; [exact Henv|]. intros ->.
      specialize (Hpairs (key, Some v) ltac:(left) eq_refl). discriminate.
    + intros kv Hin. apply Hpairs. right. exact Hin.
Qed.

Lemma set_as_environment_variables_app
    (env : gmap pystr pystr) (a b : list (pystr * option pystr)) :
  set_as_environment_variables env (a ++ b)
  = set_as_environment_variables (set_as_environment_variables env a) b.
Proof. unfold set_as_environment_variables. apply fold_left_app. Qed.

Lemma set_as_environment_variables_cons_unset
    (env : gmap pystr pystr) (key value : pystr)
    (pairs : list (pystr * option pystr)) :
  env !! key = None ->
  set_as_environment_variables env ((key, Some value) :: pairs)
  = set_as_environment_variables (<[key := value]> env) pairs.
Proof.
  intros H. unfold set_as_environment_variables. simpl. rewrite H. reflexivity.
Qed.



Lemma set_as_environment_variables_sets
    (pairs : list (pystr * option pystr)) :
  forall (env : gmap pystr pystr) (key value : pystr),
    (key, Some value) ∈ pairs ->
    is_Some (set_as_environment_variables env pairs !! key).
Proof.
  induction pairs as [|[k v] pairs IH]; intros env key value Hin.
  - inversion Hin.
  - apply elem_of_cons in Hin as [[= <- <-]|Hin].
    + destruct (env !! key) as [old|] eqn:E.
      * exists old. apply set_as_environment_variables_keeps. exact E.
      * exists value. rewrite set_as_environment_variables_cons_unset by exact E.
        apply set_as_environment_variables_keeps. apply lookup_insert_eq.
    + apply (IH _ key value Hin).
Qed.

Lemma set_as_environment_variables_fixed
    (pairs : list (pystr * option pystr)) :
  forall env : gmap pystr pystr,
    (forall key value, (key, Some value) ∈ pairs -> is_Some (env !! key)) ->
    set_as_environment_variables env pairs = env.
Proof.
  unfold set_as_environment_variables.
  induction pairs as [|[k v] pairs IH]; intros env H; simpl; [reflexivity|].
  destruct (env !! k) eqn:Ek.
  - apply IH. intros key value Hin. apply (H key value). right. exact Hin.
  - destruct v as [v|].
    + destruct (H k v ltac:(left)) as [x Hx]. congruence.
    + apply IH. intros key value Hin. apply (H key value). right. exact Hin.
Qed.

Lemma load_dotenv_idempotent (w : World) :
  load_dotenv (load_dotenv w) = load_dotenv w.
Proof.
  unfold load_dotenv. simpl. f_equal.
  apply set_as_environment_variables_fixed.
  intros key value Hin. apply (set_as_environment_variables_sets _ _ _ value Hin).
Qed.

(** X9. Calling [load_api_key] again, in the world the first call left,
    gives the same outcome and leaves that world as it is. *)
Theorem load_api_key_idempotent (w : World) :
  load_api_key (fst (load_api_key w)) = load_api_key w.
Proof.
  rewrite load_api_key_world. unfold load_api_key.
  rewrite load_dotenv_idempotent. reflexivity.
Qed.

(** ** What a response must start with *)

(** lemmas *)
Lemma literal_head (lit : string) (c : Z) (r rest : pystr) :
  literal lit (c :: r) = Some rest ->
  match py lit with
  | x :: _ => c = x
  | [] => True
  end.
Proof.
  unfold literal. destruct (py lit) as [|x p]; [trivial|].
  simpl. destruct (x =? c) eqn:E; [|discriminate].
  intros _. apply Z.eqb_eq in E. congruence.
Qed.

Lemma match_number_head (c : Z) (r : pystr) (v : pyvalue) (rest : pystr) :
  match_number (c :: r) = Some (v, rest) ->
  (c = 45 \/ is_digit c = true) /\ is_dict v = false.
Proof.
  unfold match_number, match_integer. intros H.
  destruct (c =? 45) eqn:Ec.
  - apply Z.eqb_eq in Ec. split; [left; exact Ec|].
    repeat split_match_in H; simpl in H; repeat split_match_in H;
      simplify_eq; reflexivity.
  - destruct (c =? 48) eqn:E0.
    + apply Z.eqb_eq in E0. subst c. split; [right; reflexivity|].
      simpl in H. repeat split_match_in H; simplify_eq; reflexivity.
    + destruct (is_digit c) eqn:Ed; [|discriminate H].
      split; [right; reflexivity|].
      repeat split_match_in H; simpl in H; repeat split_match_in H;
        simplify_eq; reflexivity.
Qed.

Lemma scan_items_kind (n : nat) :
  (forall s values v rest,
      JSONArray_items n s values = Scanned v rest -> is_dict v = false)
  /\ (forall s pairs v rest,
         JSONObject_items n s pairs = Scanned v rest -> is_dict v = true).
Proof.
  induction n as [|n [IHa IHo]]; [split; discriminate|]. split.
  - intros s values v rest H. simpl in H.
    repeat split_match_in H; simplify_eq; [reflexivity|].
    eapply IHa; eassumption.
  - intros s pairs v rest H. simpl in H.
    repeat split_match_in H; simplify_eq; [reflexivity|].
    eapply IHo; eassumption.
Qed.

Lemma scan_once_head (n : nat) (s : pystr) (v : pyvalue) (rest : pystr) :
  scan_once n s = Scanned v rest ->
  exists c r, s = c :: r /\ json_start c = true /\ is_dict v = (c =? 123).
Proof.
  intros H. destruct n as [|n]; [discriminate|].
  destruct s as [|c r]; [discriminate|]. exists c, r. split; [reflexivity|].
  simpl in H. unfold json_start.
  destruct (c =? 34) eqn:E1.
  { apply Z.eqb_eq in E1. subst c.
    destruct (scanstring r) as [[? ?]|]; [|discriminate].
    injection H as <- <-. split; reflexivity. }
  destruct (c =? 123) eqn:E2.
  { split; [reflexivity|].
    repeat split_match_in H; simplify_eq; [reflexivity|].
    eapply scan_items_kind; eassumption. }
  destruct (c =? 91) eqn:E3.
  { split; [reflexivity|].
    repeat split_match_in H; simplify_eq; [reflexivity|].
    eapply scan_items_kind; eassumption. }
  simpl.
  destruct (literal "null" (c :: r)) eqn:Ln.
  { apply literal_head in Ln. simpl in Ln. subst c. injection H as <- <-.
    split; reflexivity. }
  destruct (literal "true" (c :: r)) eqn:Lt.
  { apply literal_head in Lt. simpl in Lt. subst c. injection H as <- <-.
    split; reflexivity. }
  destruct (literal "false" (c :: r)) eqn:Lf.
  { apply literal_head in Lf. simpl in Lf. subst c. injection H as <- <-.
    split; reflexivity. }
  destruct (match_number (c :: r)) as [[v' rest']|] eqn:Lm.
  { injection H as <- <-. apply match_number_head in Lm as [[-> | Hd] Hv].
    - split; [reflexivity|exact Hv].
    - rewrite Hd, Hv. rewrite !orb_true_r. split; reflexivity. }
  destruct (literal "NaN" (c :: r)) eqn:LN.
  { apply literal_head in LN. simpl in LN. subst c. injection H as <- <-.
    split; reflexivity. }
  destruct (literal "Infinity" (c :: r)) eqn:LI.
  { apply literal_head in LI. simpl in LI. subst c. injection H as <- <-.
    split; reflexivity. }
  destruct (literal "-Infinity" (c :: r)) eqn:LM.
  { apply literal_head in LM. simpl in LM. subst c. injection H as <- <-.
    split; reflexivity. }
  discriminate.
Qed.

Lemma json_loads_head (text : pystr) (v : pyvalue) :
  json_loads text = Return v ->
  exists c r, skip_ws text = c :: r /\ json_start c = true
              /\ is_dict v = (c =? 123).
Proof.
  unfold json_loads, JSONDecoder_decode. intros H.
  destruct (startswith _ text); [discriminate|].
  destruct (scan_once _ _) as [obj rest| |] eqn:E; try discriminate.
  apply scan_once_head in E.
  destruct (skip_ws rest); [|discriminate]. injection H as <-. exact E.
Qed.



(** X11. A response that is empty, or all white space, or whose first
    character after white space cannot start a JSON value (a Markdown
    fence, a sentence of prose, a byte order mark) is never parsed:
    [extract_skills] returns the mapping from [raw_response] to the text. *)
Theorem extract_skills_fallback_on_bad_start
    (w : World) (cv_text api_key : pystr)
    (message : Message) (text : pystr) (blocks : list ContentBlock) :
  messages_create w (create_request cv_text api_key skills_prompt)
  = Return message ->
  message_content message = TextBlock text :: blocks ->
  (forall c r, skip_ws text = c :: r -> json_start c = false) ->
  extract_skills w cv_text api_key
  = Return (PyDict [(py "raw_response", PyStr text)]).
Proof.
  intros Hcreate Hcontent Hstart.
  destruct (extract_skills_returns w cv_text api_key message text blocks
              Hcreate Hcontent) as (v & Hv & [Hjson | [Hjson ->]]);
    [|exact Hv].
  destruct (json_loads_head text v Hjson) as (c & r & Hskip & Hc & _).
  rewrite (Hstart c r Hskip) in Hc. discriminate.
Qed.

Lemma extract_skills_fallback_on_bad_start_witness :
  extract_skills
    (response_world (py "```json" ++ [10] ++ py "{}" ++ [10] ++ py "```"))
    [] []
  = Return (PyDict [(py "raw_response",
                     PyStr (py "```json" ++ [10] ++ py "{}" ++ [10]
                               ++ py "```"))]).
Proof.
  apply (extract_skills_fallback_on_bad_start
           (response_world (py "```json" ++ [10] ++ py "{}" ++ [10] ++ py "```"))
           [] []
           {| message_content :=
                [TextBlock (py "```json" ++ [10] ++ py "{}" ++ [10]
                               ++ py "```")] |}
           _ [] eq_refl eq_refl).
  intros c r H. vm_compute in H. injection H as <- _. reflexivity.
Defined.

(** ** The encoder and the decoder: integers *)

Lemma int_of_digits_acc (u : Decimal.uint) :
  forall acc : positive,
    fold_left (fun acc d => acc * 10 + (d - 48)) (uint_digits u) (Z.pos acc)
    = Z.pos (Pos.of_uint_acc u acc).
Proof.
  induction u; intros acc; simpl; [reflexivity|..];
    rewrite <- IHu; f_equal; lia.
Qed.

Lemma int_of_digits_uint (u : Decimal.uint) :
  int_of_digits (uint_digits u) = Z.of_N (Pos.of_uint u).
Proof.
  unfold int_of_digits.
  induction u; simpl; [reflexivity|exact IHu|..];
    apply (int_of_digits_acc u).
Qed.

Lemma uint_digits_are_digits (u : Decimal.uint) :
  forallb is_digit (uint_digits u) = true.
Proof. induction u; simpl; auto. Qed.

Lemma to_uint_head (p : positive) :
  exists c ds, uint_digits (Pos.to_uint p) = c :: ds
               /\ is_digit c = true /\ c <> 48.
Proof.
  pose proof (DecimalPos.Unsigned.to_uint_nonzero p) as Hnz.
  pose proof (DecimalPos.Unsigned.to_of (Pos.to_uint p)) as Hnorm.
  rewrite DecimalPos.Unsigned.of_to in Hnorm. simpl in Hnorm.
  destruct (Pos.to_uint p) as [|u|u|u|u|u|u|u|u|u|u] eqn:E;
    try (eexists _, _; simpl; split; [reflexivity|split; [reflexivity|discriminate]]).
  - exfalso. apply (DecimalPos.Unsigned.to_uint_nonnil p). exact E.
  - exfalso. rewrite DecimalFacts.unorm_D0 in Hnorm.
    destruct u as [|u|u|u|u|u|u|u|u|u|u];
      [apply Hnz; reflexivity|..];
      match type of Hnorm with
      | _ = Decimal.unorm ?d =>
        pose proof (DecimalFacts.nb_digits_unorm d ltac:(discriminate)) as Hlen;
        rewrite <- Hnorm in Hlen; simpl in Hlen; lia
      end.
Qed.

Lemma span_digits_app (ds rest : pystr) :
  forallb is_digit ds = true ->
  match rest with
  | c :: _ => is_digit c = false
  | [] => True
  end ->
  span_digits (ds ++ rest) = (ds, rest).
Proof.
  intros Hds Hrest. induction ds as [|d ds IH]; simpl.
  - destruct rest as [|c rest]; [reflexivity|]. simpl. rewrite Hrest. reflexivity.
  - simpl in Hds. apply andb_true_iff in Hds as [Hd Hds].
    rewrite Hd, (IH Hds). reflexivity.
Qed.

Lemma match_integer_repr (z : Z) (rest : pystr) :
  ends_number rest ->
  match_integer (int_repr z ++ rest) = Some (int_repr z, rest).
Proof.
  intros Hrest.
  assert (Hd : match rest with c :: _ => is_digit c = false | [] => True end).
  { destruct rest; [trivial|]. apply Hrest. }
  unfold int_repr, match_integer. destruct z as [|p|p]; simpl Z.to_int.
  - reflexivity.
  - destruct (to_uint_head p) as (c & ds & E & Hc & Hnz).
    pose proof (uint_digits_are_digits (Pos.to_uint p)) as Hall.
    rewrite E in *. simpl in Hall. rewrite Hc in Hall. simpl in Hall. simpl.
    assert ((c =? 45) = false) as ->.
    { apply Z.eqb_neq. intros ->. discriminate. }
    apply Z.eqb_neq in Hnz. rewrite Hnz, Hc.
    rewrite (span_digits_app ds rest Hall Hd). reflexivity.
  - destruct (to_uint_head p) as (c & ds & E & Hc & Hnz).
    pose proof (uint_digits_are_digits (Pos.to_uint p)) as Hall.
    rewrite E in *. simpl in Hall. rewrite Hc in Hall. simpl in Hall. simpl.
    apply Z.eqb_neq in Hnz. rewrite Hnz, Hc.
    rewrite (span_digits_app ds rest Hall Hd). reflexivity.
Qed.

Lemma parse_int_digits (ds : pystr) :
  forallb is_digit ds = true -> parse_int ds = int_of_digits ds.
Proof.
  destruct ds as [|c ds]; [reflexivity|]. simpl. intros H.
  apply andb_true_iff in H as [Hc _].
  destruct (c =? 45) eqn:Ec; [|reflexivity].
  apply Z.eqb_eq in Ec. subst c. discriminate.
Qed.

Lemma parse_int_repr (z : Z) : parse_int (int_repr z) = z.
Proof.
  rewrite <- (DecimalZ.of_to z) at 2.
  unfold int_repr, Z.of_int. destruct (Z.to_int z) as [u|u].
  - rewrite parse_int_digits by apply uint_digits_are_digits.
    apply int_of_digits_uint.
  - simpl. rewrite int_of_digits_uint. reflexivity.
Qed.

Lemma match_number_int_repr (z : Z) (rest : pystr) :
  ends_number rest ->
  match_number (int_repr z ++ rest) = Some (PyInt z, rest).
Proof.
  intros Hrest. unfold match_number.
  rewrite (match_integer_repr z rest Hrest). simpl.
  assert (match_frac rest = None) as ->.
  { destruct rest as [|c r]; [reflexivity|]. destruct Hrest as (_ & H & _).
    unfold match_frac. apply Z.eqb_neq in H. rewrite H. reflexivity. }
  assert (match_exp rest = None) as ->.
  { destruct rest as [|c r]; [reflexivity|]. destruct Hrest as (_ & _ & H1 & H2).
    unfold match_exp. apply Z.eqb_neq in H1, H2. rewrite H1, H2. reflexivity. }
  rewrite parse_int_repr. reflexivity.
Qed.

Lemma int_repr_head (z : Z) :
  exists c r, int_repr z = c :: r /\ (c = 45 \/ is_digit c = true).
Proof.
  unfold int_repr. destruct z as [|p|p]; simpl Z.to_int.
  - eexists _, _. split; [reflexivity|right; reflexivity].
  - destruct (to_uint_head p) as (c & ds & E & Hc & _).
    exists c, ds. split; [exact E|right; exact Hc].
  - eexists _, _. split; [reflexivity|left; reflexivity].
Qed.

(** ** The encoder and the decoder: strings *)

Lemma scanstring_plain (c : Z) (r : pystr) :
  c <> 34 -> c <> 92 -> ~ (0 <= c <= 0x1F) ->
  scanstring (c :: r)
  = '(str, rest) ← scanstring r; Some (c :: str, rest).
Proof.
  intros H1 H2 H3. unfold scanstring at 1. fold scanstring.
  apply Z.eqb_neq in H1, H2. rewrite H1, H2.
  destruct ((0 <=? c) && (c <=? 31)) eqn:E; [bool_to_prop; lia|reflexivity].
Qed.

Lemma scanstring_backslash (esc char : Z) (r : pystr) :
  esc <> 117 -> backslash esc = Some char ->
  scanstring (92 :: esc :: r)
  = '(str, rest) ← scanstring r; Some (char :: str, rest).
Proof.
  intros Hu Hb. unfold scanstring at 1. fold scanstring.
  apply Z.eqb_neq in Hu. simpl. rewrite Hu, Hb. reflexivity.
Qed.

Lemma scanstring_u_escape (h1 h2 h3 h4 uni : Z) (r : pystr) :
  hex4 h1 h2 h3 h4 = Some uni -> is_high_surrogate uni = false ->
  scanstring (92 :: 117 :: h1 :: h2 :: h3 :: h4 :: r)
  = '(str, rest) ← scanstring r; Some (uni :: str, rest).
Proof.
  intros Hh Hs. unfold scanstring at 1. fold scanstring.
  simpl. rewrite Hh, Hs. simpl.
  destruct r as [|? [|? [|? [|? [|? [|? ?]]]]]]; reflexivity.
Qed.

Lemma hex_value_digit (n : Z) :
  0 <= n < 16 -> hex_value (hex_digit n) = Some n.
Proof.
  intros Hn. unfold hex_value, hex_digit, is_digit.
  destruct (n <? 10) eqn:E; bool_to_prop.
  - destruct ((48 <=? 48 + n) && (48 + n <=? 57)) eqn:E1;
      [f_equal; lia | bool_to_prop; lia].
  - destruct ((48 <=? 87 + n) && (87 + n <=? 57)) eqn:E1; [bool_to_prop; lia|].
    destruct ((97 <=? 87 + n) && (87 + n <=? 102)) eqn:E2;
      [f_equal; lia | bool_to_prop; lia].
Qed.

Lemma hex4_control (c : Z) :
  0 <= c <= 0x1F ->
  hex4 48 48 (hex_digit (c / 16)) (hex_digit (c mod 16)) = Some c.
Proof.
  intros Hc. unfold hex4.
  rewrite !hex_value_digit by (Z.to_euclidean_division_equations; lia).
  change (hex_value 48) with (Some 0). simpl.
  f_equal. Z.to_euclidean_division_equations. lia.
Qed.

Lemma scanstring_escape_char (c : Z) (r : pystr) :
  scanstring (escape_char c ++ r)
  = '(str, rest) ← scanstring r; Some (c :: str, rest).
Proof.
  unfold escape_char.
  repeat match goal with
  | |- context [if ?b then _ else _] =>
    let E := fresh "E" in
    destruct b eqn:E;
    [ bool_to_prop; subst;
      try (apply scanstring_backslash; [discriminate|reflexivity])
    | ]
  end.
  - simpl "++". apply scanstring_u_escape.
    + apply hex4_control. lia.
    + unfold is_high_surrogate.
      destruct ((55296 <=? c) && (c <=? 56319)) eqn:Eh; [bool_to_prop; lia|reflexivity].
  - apply scanstring_plain; bool_to_prop; lia.
Qed.

Lemma scanstring_escaped (s rest : pystr) :
  scanstring (flat_map escape_char s ++ 34 :: rest) = Some (s, rest).
Proof.
  induction s as [|c s IH]; [reflexivity|].
  simpl flat_map. rewrite <- app_assoc, scanstring_escape_char, IH.
  reflexivity.
Qed.

Lemma scan_once_string (n : nat) (s rest : pystr) :
  scan_once (S n) (encode_basestring s ++ rest) = Scanned (PyStr s) rest.
Proof.
  unfold encode_basestring.
  change (scan_once (S n) (([34] ++ flat_map escape_char s ++ [34]) ++ rest))
    with (match scanstring ((flat_map escape_char s ++ [34]) ++ rest) with
          | Some (str, rest) => Scanned (PyStr str) rest
          | None => NoMatch
          end).
  rewrite <- app_assoc. simpl "++". rewrite scanstring_escaped. reflexivity.
Qed.

(** ** More fuel changes nothing *)

Lemma scan_fuel_mono (n : nat) :
  forall m, (n <= m)%nat ->
  (forall s, scan_once n s <> OutOfFuel -> scan_once m s = scan_once n s)
  /\ (forall s values, JSONArray_items n s values <> OutOfFuel ->
        JSONArray_items m s values = JSONArray_items n s values)
  /\ (forall s pairs, JSONObject_items n s pairs <> OutOfFuel ->
        JSONObject_items m s pairs = JSONObject_items n s pairs).
Proof.
  induction n as [|n IH]; intros m Hm.
  { repeat split; intros; simpl in *; congruence. }
  destruct m as [|m]; [lia|].
  destruct (IH m ltac:(lia)) as (IHv & IHa & IHo).
  repeat split.
  - intros s H. simpl in *.
    repeat (split_match; try reflexivity); auto.
  - intros s values H. simpl in *.
    destruct (scan_once n s) as [value rest| |] eqn:E; [| |congruence];
      rewrite (IHv s) by congruence; rewrite E; [|reflexivity].
    repeat (split_match; try reflexivity); auto.
  - intros s pairs H. simpl in *.
    destruct (scanstring s) as [[key r1]|]; [|reflexivity].
    destruct (skip_ws r1) as [|colon r2]; [reflexivity|].
    destruct (colon =? 58); [|reflexivity].
    destruct (scan_once n (skip_ws r2)) as [value rest| |] eqn:E; [| |congruence];
      rewrite (IHv (skip_ws r2)) by congruence; rewrite E; [|reflexivity].
    repeat (split_match; try reflexivity); auto.
Qed.

Lemma scan_once_more_fuel (n m : nat) (s : pystr) (v : pyvalue) (rest : pystr) :
  scan_once n s = Scanned v rest -> (n <= m)%nat ->
  scan_once m s = Scanned v rest.
Proof.
  intros H Hm. rewrite <- H. apply (scan_fuel_mono n m Hm). congruence.
Qed.

Lemma JSONArray_items_more_fuel (n m : nat) s values v rest :
  JSONArray_items n s values = Scanned v rest -> (n <= m)%nat ->
  JSONArray_items m s values = Scanned v rest.
Proof.
  intros H Hm. rewrite <- H. apply (scan_fuel_mono n m Hm). congruence.
Qed.

Lemma JSONObject_items_more_fuel (n m : nat) s pairs v rest :
  JSONObject_items n s pairs = Scanned v rest -> (n <= m)%nat ->
  JSONObject_items m s pairs = Scanned v rest.
Proof.
  intros H Hm. rewrite <- H. apply (scan_fuel_mono n m Hm). congruence.
Qed.

(** Whatever fuel finds a value, [json_loads] finds it too. *)
Lemma json_loads_scanned (n : nat) (s : pystr) (v : pyvalue) (rest : pystr) :
  startswith [0xFEFF] s = false ->
  scan_once n (skip_ws s) = Scanned v rest ->
  skip_ws rest = [] ->
  json_loads s = Return v.
Proof.
  intros Hbom Hscan Hrest. unfold json_loads, JSONDecoder_decode. rewrite Hbom.
  pose proof (proj1 (scan_fuel (decode_fuel s)) (skip_ws s)) as Hfuel.
  assert (Hlen : (2 * length (skip_ws s) + 1 <= decode_fuel s)%nat).
  { unfold decode_fuel. pose proof (skip_ws_length s). lia. }
  specialize (Hfuel Hlen).
  assert (E : scan_once (decode_fuel s) (skip_ws s) = Scanned v rest).
  { destruct (Nat.le_ge_cases n (decode_fuel s)) as [Hle|Hge].
    - apply (scan_once_more_fuel n); assumption.
    - rewrite <- (proj1 (scan_fuel_mono _ n Hge) (skip_ws s) Hfuel). exact Hscan. }
  rewrite E, Hrest. reflexivity.
Qed.

(** ** Induction on values, and mappings with distinct keys *)

Lemma pyvalue_nested_ind (P : pyvalue -> Prop) :
  P PyNone ->
  (forall b, P (PyBool b)) ->
  (forall z, P (PyInt z)) ->
  (forall literal, P (PyFloat literal)) ->
  (forall s, P (PyStr s)) ->
  (forall l, Forall P l -> P (PyList l)) ->
  (forall items, Forall (fun item => P (snd item)) items -> P (PyDict items)) ->
  forall v, P v.
Proof.
  intros HNone HBool HInt HFloat HStr HList HDict.
  fix IH 1.
  intros [|b|z|literal|s|l|items];
    [exact HNone|apply HBool|apply HInt|apply HFloat|apply HStr| |].
  - apply HList. induction l as [|x l IHl]; constructor; [apply IH|exact IHl].
  - apply HDict. induction items as [|[k x] items IHl]; constructor;
      [apply IH|exact IHl].
Qed.

Lemma existsb_pystr_eqb (key : pystr) (keys : list pystr) :
  existsb (pystr_eqb key) keys = false <-> key ∉ keys.
Proof.
  induction keys as [|k keys IH]; simpl.
  - split; [intros _; apply not_elem_of_nil|reflexivity].
  - rewrite orb_false_iff, IH, not_elem_of_cons, pystr_eqb_neq. tauto.
Qed.

Lemma dict_set_fresh (d : list (pystr * pyvalue)) (k : pystr) (v : pyvalue) :
  k ∉ map fst d -> dict_set d k v = d ++ [(k, v)].
Proof.
  induction d as [|[k' v'] d IH]; simpl; intros H; [reflexivity|].
  apply not_elem_of_cons in H as [Hk Hd].
  apply pystr_eqb_neq in Hk. rewrite Hk, (IH Hd). reflexivity.
Qed.

Lemma distinct_app_fresh (keys : list pystr) (key : pystr) :
  distinct (keys ++ [key]) = true <-> distinct keys = true /\ key ∉ keys.
Proof.
  induction keys as [|k keys IH]; simpl.
  - split; [intros _; split; [reflexivity|apply not_elem_of_nil]|reflexivity].
  - rewrite !andb_true_iff, !negb_true_iff, !existsb_pystr_eqb, IH.
    rewrite not_elem_of_app, !not_elem_of_cons.
    pose proof (not_elem_of_nil k). intuition congruence.
Qed.

Lemma dict_of_pairs_distinct_acc (items : list (pystr * pyvalue)) :
  forall acc,
    distinct (map fst (acc ++ items)) = true ->
    fold_left (fun d kv => dict_set d (fst kv) (snd kv)) items acc = acc ++ items.
Proof.
  induction items as [|[k v] items IH]; intros acc H; simpl.
  - rewrite app_nil_r. reflexivity.
  - assert (Hacc : distinct (map fst (acc ++ [(k, v)])) = true
                   /\ distinct (map fst ((acc ++ [(k, v)]) ++ items)) = true).
    { rewrite <- app_assoc. split; [|exact H].
      clear IH. revert H. rewrite !map_app. simpl.
      generalize (map fst acc) as a, (map fst items) as b. clear.
      induction a as [|x a IHa]; simpl; intros b H.
      - reflexivity.
      - apply andb_true_iff in H as [Hx Ha]. apply andb_true_iff. split.
        + apply negb_true_iff, existsb_pystr_eqb.
          apply negb_true_iff, existsb_pystr_eqb in Hx.
          rewrite !not_elem_of_app, !not_elem_of_cons in *.
          pose proof (not_elem_of_nil x). intuition congruence.
        + apply (IHa b Ha). }
    destruct Hacc as [H1 H2].
    rewrite map_app in H1. apply distinct_app_fresh in H1 as [_ Hfresh].
    rewrite dict_set_fresh by exact Hfresh.
    rewrite (IH _ H2), <- app_assoc. reflexivity.
Qed.

Lemma dict_of_pairs_distinct (items : list (pystr * pyvalue)) :
  distinct (map fst items) = true -> dict_of_pairs items = items.
Proof. intros H. apply (dict_of_pairs_distinct_acc items []). exact H. Qed.

Lemma dict_set_keys (d : list (pystr * pyvalue)) (k : pystr) (v : pyvalue) :
  forall x, x ∈ map fst (dict_set d k v) -> x ∈ map fst d \/ x = k.
Proof.
  induction d as [|[k' v'] d IH]; simpl; intros x Hx.
  - apply list_elem_of_singleton in Hx. right. exact Hx.
  - destruct (pystr_eqb k k'); simpl in Hx.
    + left. exact Hx.
    + apply elem_of_cons in Hx as [->|Hx]; [left; left|].
      destruct (IH x Hx) as [H|H]; [left; right; exact H|right; exact H].
Qed.

Lemma dict_set_distinct (d : list (pystr * pyvalue)) (k : pystr) (v : pyvalue) :
  distinct (map fst d) = true -> distinct (map fst (dict_set d k v)) = true.
Proof.
  induction d as [|[k' v'] d IH]; simpl; intros H; [reflexivity|].
  apply andb_true_iff in H as [Hk' Hd].
  destruct (pystr_eqb k k') eqn:E; simpl.
  - rewrite Hk', Hd. reflexivity.
  - rewrite (IH Hd), andb_true_r.
    apply negb_true_iff, existsb_pystr_eqb.
    apply negb_true_iff, existsb_pystr_eqb in Hk'.
    intros Hin. apply dict_set_keys in Hin as [Hin| ->]; [auto|].
    apply pystr_eqb_neq in E. congruence.
Qed.

Lemma dict_set_forallb (P : pystr * pyvalue -> bool)
    (d : list (pystr * pyvalue)) (k : pystr) (v : pyvalue) :
  (forall k', P (k', v) = P (k, v)) ->
  forallb P d = true -> P (k, v) = true -> forallb P (dict_set d k v) = true.
Proof.
  intros Hkey. induction d as [|[k' v'] d IH]; simpl; intros Hd Hv.
  - rewrite Hv. reflexivity.
  - apply andb_true_iff in Hd as [H1 H2].
    destruct (pystr_eqb k k'); simpl.
    + rewrite Hkey, Hv, H2. reflexivity.
    + rewrite H1, (IH H2 Hv). reflexivity.
Qed.

Lemma dict_of_pairs_unique_keys (pairs : list (pystr * pyvalue)) :
  forallb (fun item => unique_keys (snd item)) pairs = true ->
  unique_keys (PyDict (dict_of_pairs pairs)) = true.
Proof.
  unfold dict_of_pairs.
  assert (H : forall acc,
             unique_keys (PyDict acc) = true ->
             forallb (fun item => unique_keys (snd item)) pairs = true ->
             unique_keys
               (PyDict (fold_left (fun d kv => dict_set d (fst kv) (snd kv))
                                  pairs acc)) = true).
  { induction pairs as [|[k v] pairs IH]; intros acc Hacc Hp; simpl;
      [exact Hacc|].
    simpl in Hp. apply andb_true_iff in Hp as [Hv Hp].
    apply IH; [|exact Hp].
    simpl in Hacc |- *. apply andb_true_iff in Hacc as [H1 H2].
    rewrite dict_set_distinct by exact H1.
    rewrite dict_set_forallb; auto. }
  apply H. reflexivity.
Qed.

Lemma forallb_snoc {A} (P : A -> bool) (l : list A) (x : A) :
  forallb P (l ++ [x]) = forallb P l && P x.
Proof. rewrite forallb_app. simpl. rewrite andb_true_r. reflexivity. Qed.

Lemma match_number_unique_keys (s : pystr) (v : pyvalue) (rest : pystr) :
  match_number s = Some (v, rest) -> unique_keys v = true.
Proof.
  unfold match_number. intros H.
  destruct (match_integer s) as [[? ?]|]; [simpl in H|discriminate].
  repeat split_match_in H; simplify_eq; reflexivity.
Qed.

Lemma scan_unique_keys (n : nat) :
  (forall s v rest, scan_once n s = Scanned v rest -> unique_keys v = true)
  /\ (forall s values v rest,
         JSONArray_items n s values = Scanned v rest ->
         forallb unique_keys values = true -> unique_keys v = true)
  /\ (forall s pairs v rest,
         JSONObject_items n s pairs = Scanned v rest ->
         forallb (fun item => unique_keys (snd item)) pairs = true ->
         unique_keys v = true).
Proof.
  induction n as [|n (IHv & IHa & IHo)]; [repeat split; discriminate|].
  repeat split.
  - intros s v rest H. destruct s as [|c r]; simpl in H; [discriminate|].
    repeat split_match_in H; simplify_eq; try reflexivity.
    + eapply IHo; [eassumption|reflexivity].
    + eapply IHa; [eassumption|reflexivity].
    + eapply match_number_unique_keys; eassumption.
  - intros s values v rest H Hvalues. simpl in H.
    destruct (scan_once n s) as [value r0| |] eqn:E; try discriminate.
    apply IHv in E.
    repeat split_match_in H; simplify_eq.
    + simpl. rewrite forallb_snoc, Hvalues, E. reflexivity.
    + eapply IHa; [eassumption|]. rewrite forallb_snoc, Hvalues, E. reflexivity.
  - intros s pairs v rest H Hpairs. simpl in H.
    repeat split_match_in H; simplify_eq;
      match goal with
      | E : scan_once _ _ = Scanned _ _ |- _ => apply IHv in E
      end.
    + apply dict_of_pairs_unique_keys.
      rewrite forallb_snoc, Hpairs. simpl. assumption.
    + eapply IHo; [eassumption|].
      rewrite forallb_snoc, Hpairs. simpl. assumption.
Qed.

Lemma json_loads_unique_keys (s : pystr) (v : pyvalue) :
  json_loads s = Return v -> unique_keys v = true.
Proof.
  unfold json_loads, JSONDecoder_decode. intros H.
  repeat split_match_in H; simplify_eq.
  eapply (proj1 (scan_unique_keys _)); eassumption.
Qed.

(** ** What the encoder writes is what the decoder reads *)

Lemma json_start_facts (c : Z) :
  json_start c = true ->
  is_ws c = false /\ (c =? 93) = false /\ (c =? 125) = false.
Proof.
  unfold json_start, is_ws, is_digit. intros H.
  repeat match type of H with
  | _ || _ = true => apply orb_true_iff in H as [H|H]
  end;
  try (apply Z.eqb_eq in H; subst c; repeat split; reflexivity).
  bool_to_prop.
  repeat split;
    repeat match goal with
    | |- _ || _ = false => apply orb_false_iff; split
    | |- (_ =? _) = false => apply Z.eqb_neq; lia
    end.
Qed.

Lemma skip_ws_cons (c : Z) (r : pystr) :
  skip_ws (c :: r) = if is_ws c then skip_ws r else c :: r.
Proof. reflexivity. Qed.

Lemma skip_ws_start (c : Z) (r : pystr) :
  json_start c = true -> skip_ws (c :: r) = c :: r.
Proof.
  intros H. apply json_start_facts in H as [H _].
  rewrite skip_ws_cons, H. reflexivity.
Qed.

Lemma skip_ws_spaces (k : nat) (r : pystr) :
  skip_ws (repeat 32 k ++ r) = skip_ws r.
Proof.
  induction k as [|k IH]; [reflexivity|].
  simpl. rewrite skip_ws_cons. exact IH.
Qed.

Lemma skip_ws_newline_indent (level : nat) (r : pystr) :
  skip_ws (newline_indent level ++ r) = skip_ws r.
Proof.
  unfold newline_indent.
  change ((10 :: repeat 32 (2 * level)) ++ r)
    with (10 :: repeat 32 (2 * level) ++ r).
  rewrite skip_ws_cons. apply skip_ws_spaces.
Qed.

Lemma literal_other_head (lit : string) (c : Z) (r : pystr) :
  match py lit with
  | x :: _ => c <> x
  | [] => False
  end ->
  literal lit (c :: r) = None.
Proof.
  intros H. destruct (literal lit (c :: r)) eqn:E; [|reflexivity].
  apply literal_head in E. destruct (py lit); [destruct H|congruence].
Qed.

Lemma scan_once_int (n : nat) (z : Z) (rest : pystr) :
  ends_number rest ->
  scan_once (S n) (int_repr z ++ rest) = Scanned (PyInt z) rest.
Proof.
  intros Hrest. pose proof (match_number_int_repr z rest Hrest) as Hnum.
  destruct (int_repr_head z) as (c & r & E & Hc). rewrite E in *.
  simpl "++" in *.
  assert (Hne : c <> 34 /\ c <> 123 /\ c <> 91 /\ c <> 110 /\ c <> 116
                /\ c <> 102).
  { destruct Hc as [-> | Hd]; [repeat split; discriminate|].
    unfold is_digit in Hd. bool_to_prop. lia. }
  destruct Hne as (H1 & H2 & H3 & H4 & H5 & H6).
  simpl scan_once.
  apply Z.eqb_neq in H1, H2, H3. rewrite H1, H2, H3.
  rewrite !literal_other_head by (simpl; assumption).
  rewrite Hnum. reflexivity.
Qed.

Lemma JSONArray_items_step (n : nat) (s : pystr) (values : list pyvalue) :
  JSONArray_items (S n) s values
  = match scan_once n s with
    | Scanned value rest =>
      match skip_ws rest with
      | c :: r =>
        if c =? 93 then Scanned (PyList (values ++ [value])) r
        else if c =? 44 then
          JSONArray_items n (skip_ws r) (values ++ [value])
        else NoMatch
      | [] => NoMatch
      end
    | NoMatch => NoMatch
    | OutOfFuel => OutOfFuel
    end.
Proof. reflexivity. Qed.

Lemma JSONObject_items_step (n : nat) (s : pystr)
    (pairs : list (pystr * pyvalue)) :
  JSONObject_items (S n) s pairs
  = match scanstring s with
    | None => NoMatch
    | Some (key, r1) =>
      match skip_ws r1 with
      | colon :: r2 =>
        if colon =? 58 then
          match scan_once n (skip_ws r2) with
          | Scanned value rest =>
            match skip_ws rest with
            | c :: r3 =>
              if c =? 125 then
                Scanned (PyDict (dict_of_pairs (pairs ++ [(key, value)]))) r3
              else if c =? 44 then
                match skip_ws r3 with
                | q :: r4 =>
                  if q =? 34 then
                    JSONObject_items n r4 (pairs ++ [(key, value)])
                  else NoMatch
                | [] => NoMatch
                end
              else NoMatch
            | [] => NoMatch
            end
          | NoMatch => NoMatch
          | OutOfFuel => OutOfFuel
          end
        else NoMatch
      | [] => NoMatch
      end
    end.
Proof. reflexivity. Qed.

Lemma scan_once_array (n : nat) (r : pystr) :
  scan_once (S n) (91 :: r)
  = match skip_ws r with
    | c :: r1 =>
      if c =? 93 then Scanned (PyList []) r1
      else JSONArray_items n (c :: r1) []
    | [] => NoMatch
    end.
Proof. reflexivity. Qed.

Lemma scan_once_object (n : nat) (r : pystr) :
  scan_once (S n) (123 :: r)
  = match skip_ws r with
    | c :: r1 =>
      if c =? 125 then Scanned (PyDict []) r1
      else if c =? 34 then JSONObject_items n r1 []
      else NoMatch
    | [] => NoMatch
    end.
Proof. reflexivity. Qed.

Section RoundTrip.

Variable floatstr : pystr -> pystr.

Lemma iterencode_head (level : nat) (v : pyvalue) :
  float_free v = true ->
  exists c r, iterencode floatstr level v = c :: r /\ json_start c = true.
Proof.
  destruct v as [|[|]|z|literal|s|[|x l]|[|[k x] items]]; simpl; intros H;
    try discriminate;
    try (eexists _, _; split; reflexivity).
  destruct (int_repr_head z) as (c & r & E & Hc).
  exists c, r. split; [exact E|]. unfold json_start.
  destruct Hc as [-> | ->]; [reflexivity|]. rewrite !orb_true_r. reflexivity.
Qed.

Lemma JSONArray_items_reads_back (level : nat) (l : list pyvalue) :
  Forall (reads_back floatstr) l ->
  forallb float_free l = true ->
  forall x values rest,
    (reads_back floatstr) x ->
    exists n,
      JSONArray_items n
        (join ([44] ++ newline_indent (S level))
              (map (iterencode floatstr (S level)) (x :: l))
         ++ newline_indent level ++ 93 :: rest)
        values
      = Scanned (PyList (values ++ x :: l)) rest.
Proof.
  induction 1 as [|y l Hy Hl IH]; intros Hff x values rest Hx.
  - destruct (Hx (S level) (newline_indent level ++ 93 :: rest))
      as [n Hn]; [simpl; repeat split; discriminate|].
    exists (S n). change (join ?sep (map ?f [x])) with (f x).
    rewrite JSONArray_items_step, Hn.
    rewrite skip_ws_newline_indent, skip_ws_cons. reflexivity.
  - simpl in Hff. apply andb_true_iff in Hff as [Hfy Hfl].
    destruct (IH Hfl y (values ++ [x]) rest Hy) as [n1 Hn1].
    set (tail := join ([44] ++ newline_indent (S level))
                      (map (iterencode floatstr (S level)) (y :: l))
                 ++ newline_indent level ++ 93 :: rest) in *.
    destruct (Hx (S level) (44 :: newline_indent (S level) ++ tail))
      as [n2 Hn2]; [simpl; repeat split; discriminate|].
    exists (S (Nat.max n1 n2)).
    change (join ?sep (map ?f (x :: y :: l)))
      with (f x ++ sep ++ join sep (map f (y :: l))).
    rewrite <- !app_assoc.
    change (([44] ++ newline_indent (S level))
              ++ join ([44] ++ newline_indent (S level))
                      (map (iterencode floatstr (S level)) (y :: l))
              ++ newline_indent level ++ 93 :: rest)
      with (44 :: newline_indent (S level) ++ tail).
    rewrite JSONArray_items_step.
    rewrite (scan_once_more_fuel n2 _ _ _ _ Hn2) by lia.
    rewrite skip_ws_cons. change (is_ws 44) with false. cbv iota.
    change (44 =? 93) with false. change (44 =? 44) with true. cbv iota.
    rewrite skip_ws_newline_indent.
    destruct (iterencode_head (S level) y Hfy) as (c & r & E & Hc).
    assert (Hskip : skip_ws tail = tail).
    { unfold tail. destruct l; simpl join; simpl map; rewrite E;
        simpl "++"; apply skip_ws_start; exact Hc. }
    rewrite Hskip.
    replace (values ++ x :: y :: l) with ((values ++ [x]) ++ y :: l)
      by (rewrite <- app_assoc; reflexivity).
    apply (JSONArray_items_more_fuel n1); [exact Hn1|lia].
Qed.

Lemma join_cons_flat_map {A} (sep : pystr) (g : A -> pystr) (a : A) (l : list A) :
  join sep (map g (a :: l)) = g a ++ flat_map (fun item => sep ++ g item) l.
Proof.
  revert a; induction l as [|b l IH]; intros a.
  - simpl. rewrite app_nil_r. reflexivity.
  - change (join sep (map g (a :: b :: l)))
      with (g a ++ sep ++ join sep (map g (b :: l))).
    rewrite IH. simpl flat_map. rewrite <- app_assoc. reflexivity.
Qed.

Lemma encode_items_cons (level : nat) (k : pystr) (y : pyvalue)
    (l : list (pystr * pyvalue)) (t : pystr) :
  flat_map (fun item => ([44] ++ newline_indent (S level))
                        ++ encode_item floatstr (S level) item) ((k, y) :: l) ++ t
  = 44 :: newline_indent (S level)
       ++ 34 :: flat_map escape_char k
       ++ 34 :: 58 :: 32 :: iterencode floatstr (S level) y
       ++ flat_map (fun item => ([44] ++ newline_indent (S level))
                                ++ encode_item floatstr (S level) item) l ++ t.
Proof.
  change (flat_map ?g ((k, y) :: l)) with (g (k, y) ++ flat_map g l).
  unfold encode_item at 1, encode_basestring. simpl fst. simpl snd.
  rewrite <- !app_assoc. reflexivity.
Qed.

Lemma JSONObject_items_reads_back (level : nat) (l : list (pystr * pyvalue)) :
  Forall (fun item => (reads_back floatstr) (snd item)) l ->
  forallb (fun item => float_free (snd item)) l = true ->
  forall k x pairs rest,
    (reads_back floatstr) x -> float_free x = true ->
    exists n,
      JSONObject_items n
        (flat_map escape_char k ++ 34 :: 58 :: 32
           :: iterencode floatstr (S level) x
           ++ flat_map (fun item => ([44] ++ newline_indent (S level))
                                    ++ encode_item floatstr (S level) item) l
           ++ newline_indent level ++ 125 :: rest)
        pairs
      = Scanned (PyDict (dict_of_pairs (pairs ++ (k, x) :: l))) rest.
Proof.
  induction 1 as [|[k' y] l Hy Hl IH]; intros Hff k x pairs rest Hx Hfx;
    destruct (iterencode_head (S level) x Hfx) as (c & r & E & Hc);
    assert (Hskip : forall t, skip_ws (iterencode floatstr (S level) x ++ t)
                              = iterencode floatstr (S level) x ++ t)
      by (intros t; rewrite E; apply skip_ws_start; exact Hc).
  - destruct (Hx (S level) (newline_indent level ++ 125 :: rest))
      as [n Hn]; [simpl; repeat split; discriminate|].
    exists (S n).
    change (flat_map ?g (@nil (pystr * pyvalue)) ++ ?t) with t.
    rewrite JSONObject_items_step, scanstring_escaped.
    rewrite skip_ws_cons. change (is_ws 58) with false. cbv iota.
    change (58 =? 58) with true. cbv iota.
    rewrite skip_ws_cons. change (is_ws 32) with true. cbv iota.
    rewrite Hskip, Hn, skip_ws_newline_indent, skip_ws_cons. reflexivity.
  - simpl in Hff. apply andb_true_iff in Hff as [Hfy Hfl]. simpl in Hy.
    destruct (IH Hfl k' y (pairs ++ [(k, x)]) rest Hy Hfy) as [n1 Hn1].
    rewrite encode_items_cons.
    set (tail := flat_map escape_char k' ++ 34 :: 58 :: 32
                 :: iterencode floatstr (S level) y
                 ++ flat_map (fun item => ([44] ++ newline_indent (S level))
                                          ++ encode_item floatstr (S level) item) l
                 ++ newline_indent level ++ 125 :: rest) in *.
    destruct (Hx (S level) (44 :: newline_indent (S level) ++ 34 :: tail))
      as [n2 Hn2]; [simpl; repeat split; discriminate|].
    exists (S (Nat.max n1 n2)).
    rewrite JSONObject_items_step, scanstring_escaped.
    rewrite skip_ws_cons. change (is_ws 58) with false. cbv iota.
    change (58 =? 58) with true. cbv iota.
    rewrite skip_ws_cons. change (is_ws 32) with true. cbv iota.
    rewrite Hskip, (scan_once_more_fuel n2 _ _ _ _ Hn2) by lia.
    rewrite skip_ws_cons. change (is_ws 44) with false. cbv iota.
    change (44 =? 125) with false. change (44 =? 44) with true. cbv iota.
    rewrite skip_ws_newline_indent, skip_ws_cons.
    change (is_ws 34) with false. cbv iota.
    change (34 =? 34) with true. cbv iota.
    replace (pairs ++ (k, x) :: (k', y) :: l)
      with ((pairs ++ [(k, x)]) ++ (k', y) :: l)
      by (rewrite <- app_assoc; reflexivity).
    apply (JSONObject_items_more_fuel n1); [exact Hn1|lia].
Qed.

Lemma iterencode_reads_back (v : pyvalue) :
  float_free v = true -> unique_keys v = true -> (reads_back floatstr) v.
Proof.
  induction v as [|b|z|literal|s|l IH|items IH] using pyvalue_nested_ind;
    intros Hff Huk level rest Hrest.
  - exists 1%nat. reflexivity.
  - exists 1%nat. destruct b; reflexivity.
  - exists 1%nat. apply scan_once_int. exact Hrest.
  - discriminate.
  - exists 1%nat. apply scan_once_string.
  - simpl in Hff, Huk.
    assert (Hall : Forall (reads_back floatstr) l).
    { clear level rest Hrest. induction IH as [|x l Hx _ IHl]; constructor;
        simpl in Hff, Huk;
        apply andb_true_iff in Hff as [? ?], Huk as [? ?]; auto. }
    destruct l as [|x l]; [exists 1%nat; reflexivity|].
    inversion Hall as [|? ? Hx Hl]; subst.
    simpl in Hff. apply andb_true_iff in Hff as [Hfx Hfl].
    destruct (JSONArray_items_reads_back level l Hl Hfl x [] rest Hx)
      as [n Hn].
    exists (S n).
    change (iterencode floatstr level (PyList (x :: l)))
      with ([91] ++ newline_indent (S level)
                 ++ join ([44] ++ newline_indent (S level))
                         (map (iterencode floatstr (S level)) (x :: l))
                 ++ newline_indent level ++ [93]).
    rewrite <- !app_assoc.
    change ([91] ++ ?t) with (91 :: t). change ([93] ++ rest) with (93 :: rest).
    rewrite scan_once_array, skip_ws_newline_indent.
    destruct (iterencode_head (S level) x Hfx) as (c & r & E & Hc).
    revert Hn. rewrite join_cons_flat_map, E, <- !app_assoc.
    change ((c :: r) ++ ?t) with (c :: r ++ t). intros Hn.
    rewrite skip_ws_start by exact Hc.
    apply json_start_facts in Hc as (_ & -> & _). exact Hn.
  - simpl in Hff, Huk. apply andb_true_iff in Huk as [Hkeys Huk].
    assert (Hall : Forall (fun item => (reads_back floatstr) (snd item)) items).
    { clear level rest Hrest Hkeys.
      induction IH as [|x l Hx _ IHl]; constructor;
        simpl in Hff, Huk;
        apply andb_true_iff in Hff as [? ?], Huk as [? ?]; auto. }
    destruct items as [|[k x] items]; [exists 1%nat; reflexivity|].
    inversion Hall as [|? ? Hx Hl]; subst. simpl in Hx.
    simpl in Hff. apply andb_true_iff in Hff as [Hfx Hfl].
    destruct (JSONObject_items_reads_back level items Hl Hfl k x [] rest Hx Hfx)
      as [n Hn].
    exists (S n).
    change (iterencode floatstr level (PyDict ((k, x) :: items)))
      with ([123] ++ newline_indent (S level)
                  ++ join ([44] ++ newline_indent (S level))
                          (map (encode_item floatstr (S level)) ((k, x) :: items))
                  ++ newline_indent level ++ [125]).
    rewrite join_cons_flat_map. unfold encode_item at 1, encode_basestring.
    simpl fst. simpl snd. rewrite <- !app_assoc.
    change ([123] ++ ?t) with (123 :: t). change ([125] ++ rest) with (125 :: rest).
    change ([34] ++ ?t) with (34 :: t).
    rewrite scan_once_object, skip_ws_newline_indent, skip_ws_cons.
    change (is_ws 34) with false. cbv iota.
    change (34 =? 125) with false. change (34 =? 34) with true. cbv iota.
    change (py ": " ++ ?t) with (58 :: 32 :: t).
    change ([34] ++ ?t) with (34 :: t).
    rewrite Hn. simpl "++".
    rewrite (dict_of_pairs_distinct ((k, x) :: items) Hkeys). reflexivity.
Qed.

Lemma skip_ws_all_ws (pre r : pystr) :
  forallb is_ws pre = true -> skip_ws (pre ++ r) = skip_ws r.
Proof.
  induction pre as [|c pre IH]; simpl; intros H; [reflexivity|].
  apply andb_true_iff in H as [Hc Hpre].
  rewrite skip_ws_cons, Hc. apply IH. exact Hpre.
Qed.

Lemma is_ws_values (c : Z) :
  is_ws c = true -> c = 32 \/ c = 9 \/ c = 10 \/ c = 13.
Proof.
  unfold is_ws. intros H.
  repeat match type of H with
  | _ || _ = true => apply orb_true_iff in H as [H|H]
  end; apply Z.eqb_eq in H; auto.
Qed.

Lemma is_ws_ends_number (post : pystr) :
  forallb is_ws post = true -> ends_number post.
Proof.
  destruct post as [|c post]; [intros _; exact I|]. simpl. intros H.
  apply andb_true_iff in H as [Hc _]. apply is_ws_values in Hc.
  intuition (subst; try reflexivity; try discriminate).
Qed.

(** A document scanned from its first character up to trailing white space
    is what [json.loads] returns, whatever white space comes before. *)
Lemma json_loads_around
    (n : nat) (pre : pystr) (c : Z) (r post : pystr) (v : pyvalue) :
  forallb is_ws pre = true -> forallb is_ws post = true ->
  json_start c = true ->
  scan_once n (c :: r ++ post) = Scanned v post ->
  json_loads (pre ++ c :: r ++ post) = Return v.
Proof.
  intros Hpre Hpost Hc Hn.
  apply (json_loads_scanned n _ v post).
  - destruct pre as [|p pre].
    + change (startswith [0xFEFF] ([] ++ c :: r ++ post))
        with ((0xFEFF =? c) && true).
      destruct (0xFEFF =? c) eqn:Eb; [|reflexivity].
      apply Z.eqb_eq in Eb. subst c. discriminate.
    + simpl in Hpre. apply andb_true_iff in Hpre as [Hp _].
      apply is_ws_values in Hp.
      change (startswith [0xFEFF] ((p :: pre) ++ c :: r ++ post))
        with ((0xFEFF =? p) && true).
      destruct (0xFEFF =? p) eqn:Eb; [|reflexivity].
      apply Z.eqb_eq in Eb. subst p. intuition discriminate.
  - rewrite skip_ws_all_ws by exact Hpre.
    rewrite skip_ws_start by exact Hc. exact Hn.
  - rewrite <- (app_nil_r post), skip_ws_all_ws by exact Hpost. reflexivity.
Qed.


(** What [print] writes of a result, its encoding and a line feed, decodes
    to the result. *)
Lemma json_loads_printed (v : pyvalue) :
  float_free v = true -> unique_keys v = true ->
  json_loads (json_dumps floatstr v ++ [10]) = Return v.
Proof.
  intros Hff Huk. unfold json_dumps.
  destruct (iterencode_reads_back v Hff Huk 0%nat [10]
              (is_ws_ends_number [10] eq_refl)) as [n Hn].
  destruct (iterencode_head 0 v Hff) as (c & r & E & Hc).
  rewrite E in Hn |- *.
  exact (json_loads_around n [] c r [10] v eq_refl eq_refl Hc Hn).
Qed.

End RoundTrip.


(** ** Text that can be written in UTF-8 *)

Lemma utf8_encode_app (a b : pystr) :
  utf8_encode (a ++ b)
  = match utf8_encode a, utf8_encode b with
    | Some x, Some y => Some (x ++ y)
    | _, _ => None
    end.
Proof.
  induction a as [|c a IH]; simpl.
  - destruct (utf8_encode b); reflexivity.
  - rewrite IH. destruct (utf8_encode_char c) as [bc|]; [|reflexivity].
    destruct (utf8_encode a) as [x|]; [|reflexivity].
    destruct (utf8_encode b) as [y|]; [|reflexivity].
    rewrite app_assoc. reflexivity.
Qed.

Lemma utf8_encode_ascii (c : Z) :
  0 <= c < 0x80 -> utf8_encode_char c = Some [c].
Proof. intros H. apply utf8_encode_char_1. lia. Qed.

Lemma utf8_encode_escape_char (c : Z) :
  utf8_encode_char c <> None -> utf8_encode (escape_char c) <> None.
Proof.
  intros Hc. unfold escape_char.
  repeat match goal with
  | |- context [if ?b then _ else _] =>
    let E := fresh "E" in destruct b eqn:E; [discriminate|]
  end.
  destruct ((0 <=? c) && (c <=? 31)) eqn:Ectl.
  - bool_to_prop. simpl.
    assert (H1 : utf8_encode_char (hex_digit (c / 16))
                 = Some [hex_digit (c / 16)]).
    { apply utf8_encode_ascii. unfold hex_digit.
      destruct (c / 16 <? 10); Z.to_euclidean_division_equations; lia. }
    assert (H2 : utf8_encode_char (hex_digit (c mod 16))
                 = Some [hex_digit (c mod 16)]).
    { apply utf8_encode_ascii. unfold hex_digit.
      destruct (c mod 16 <? 10); Z.to_euclidean_division_equations; lia. }
    rewrite H1, H2. discriminate.
  - simpl. destruct (utf8_encode_char c); [discriminate|congruence].
Qed.

Lemma utf8_encode_escaped (s : pystr) :
  utf8_encode s <> None -> utf8_encode (flat_map escape_char s) <> None.
Proof.
  induction s as [|c s IH]; simpl; [discriminate|]. intros H.
  rewrite utf8_encode_app.
  destruct (utf8_encode_char c) as [bc|] eqn:Ec; [|congruence].
  destruct (utf8_encode s) as [bs|] eqn:Es; [|congruence].
  pose proof (utf8_encode_escape_char c ltac:(congruence)) as H1.
  pose proof (IH ltac:(discriminate)) as H2.
  destruct (utf8_encode (escape_char c)); [|congruence].
  destruct (utf8_encode (flat_map escape_char s)); [discriminate|congruence].
Qed.

Lemma translate_newlines_encodable (n : nat) :
  forall s, (length s <= n)%nat ->
            utf8_encode s <> None -> utf8_encode (translate_newlines s) <> None.
Proof.
  induction n as [|n IH]; intros s Hn H.
  - destruct s; simpl in *; [discriminate|lia].
  - destruct s as [|c s]; simpl in *; [discriminate|].
    destruct (utf8_encode_char c) as [bc|] eqn:Ec; [|congruence].
    destruct (utf8_encode s) as [bs|] eqn:Es; [|congruence].
    assert (Hlf : forall t, utf8_encode t <> None -> utf8_encode (10 :: t) <> None).
    { intros t Ht. simpl. change (utf8_encode_char 10) with (Some [10]).
      destruct (utf8_encode t); [discriminate|congruence]. }
    destruct (c =? 13).
    + destruct s as [|c' s]; [discriminate|].
      destruct (c' =? 10).
      * apply Hlf, IH; [simpl in *; lia|]. simpl in Es.
        destruct (utf8_encode_char c'); [|discriminate].
        destruct (utf8_encode s); [discriminate|discriminate].
      * apply Hlf, IH; [simpl in *; lia|]. rewrite Es. discriminate.
    + simpl. rewrite Ec.
      pose proof (IH s ltac:(lia) ltac:(rewrite Es; discriminate)) as H1.
      destruct (utf8_encode (translate_newlines s)); [discriminate|congruence].
Qed.

(** X18. The text [load_cv_text] returns for a [.txt] file can always be
    written as UTF-8 again: strict decoding lets no surrogate and no code
    point past U+10FFFF through, and the newline translation adds none. *)
Theorem load_cv_text_txt_encodable (w : World) (cv_path : Path) (s : pystr) :
  lower (suffix cv_path) = py ".txt" ->
  load_cv_text w cv_path = Return s ->
  exists bs, utf8_encode s = Some bs.
Proof.
  intros Hsuffix. unfold load_cv_text.
  destruct (exists_ w cv_path); simpl; [|discriminate].
  rewrite Hsuffix. simpl. unfold read_text.
  destruct (read_bytes w cv_path) as [bs|]; simpl; [|discriminate].
  destruct (utf8_decode bs) as [s'|] eqn:E; [|discriminate].
  intros [= <-]. apply utf8_decode_encode in E.
  pose proof (translate_newlines_encodable (length s') s'
                ltac:(lia) ltac:(rewrite E; discriminate)) as H.
  destruct (utf8_encode (translate_newlines s')) as [bs'|]; [eauto|congruence].
Qed.

Lemma load_cv_text_txt_encodable_witness :
  load_cv_text crlf_world (relative "cv.txt") = Return [97; 10; 98]
  /\ exists bs, utf8_encode [97; 10; 98] = Some bs.
Proof.
  split; [reflexivity|].
  apply (load_cv_text_txt_encodable crlf_world (relative "cv.txt"));
    reflexivity.
Defined.

(** ** main *)

Section Main.

Variable floatstr : pystr -> pystr.

Variable encode_stdout : pystr -> option pybytes.

Lemma main_unfold (w : World) :
  main floatstr encode_stdout w
  = match api_key ← snd (load_api_key w);
          cv_text ← load_cv_text (load_dotenv w) (mkPath [] [py "bolu.pdf"]);
          extract_skills (load_dotenv w) cv_text api_key with
    | Return result =>
      {| world_after := load_dotenv w;
         stdout := fst (print encode_stdout [] (json_dumps floatstr result));
         exit := snd (print encode_stdout [] (json_dumps floatstr result)) |}
    | Raise e =>
      {| world_after := load_dotenv w; stdout := []; exit := Raise e |}
    end.
Proof.
  unfold main. rewrite <- (load_api_key_world w).
  destruct (load_api_key w) as [w' r]. destruct (_ ≫= _); [|reflexivity].
  destruct (print _ _ _). reflexivity.
Qed.

(** X13. The key is checked before the input file is looked at: when
    [ANTHROPIC_API_KEY] is unset or empty once the [.env] file is loaded,
    [main] ends with the missing-key error and writes nothing to the
    standard output, whether or not [bolu.pdf] exists and whatever the API
    would answer. *)
Theorem main_credentials_first (w : World) :
  getenv (load_dotenv w) (py "ANTHROPIC_API_KEY") = None
  \/ getenv (load_dotenv w) (py "ANTHROPIC_API_KEY") = Some [] ->
  exit (main floatstr encode_stdout w)
  = Raise (CVExtractorError
             (py "Missing ANTHROPIC_API_KEY in environment. Set it in your .env file."))
  /\ stdout (main floatstr encode_stdout w) = [].
Proof.
  intros H. rewrite main_unfold. unfold load_api_key.
  destruct H as [-> | ->]; split; reflexivity.
Qed.

Lemma load_api_key_with_client (w : World) client :
  snd (load_api_key (with_client w client)) = snd (load_api_key w).
Proof.
  unfold load_api_key.
  change (getenv (load_dotenv (with_client w client)))
    with (getenv (load_dotenv w)).
  destruct (getenv (load_dotenv w) _) as [[|? ?]|]; reflexivity.
Qed.

(** X14. When the key is missing, or the key is there and loading
    [bolu.pdf] fails, [main] ends with that error and writes nothing to the
    standard output whatever the API client is: the run does not depend on
    the API. *)
Theorem main_fails_without_request
    (w : World) (e : exn) (client : Request -> outcome Message) :
  snd (load_api_key w) = Raise e
  \/ (exists api_key, snd (load_api_key w) = Return api_key)
     /\ load_cv_text (load_dotenv w) (mkPath [] [py "bolu.pdf"]) = Raise e ->
  exit (main floatstr encode_stdout (with_client w client)) = Raise e
  /\ stdout (main floatstr encode_stdout (with_client w client)) = [].
Proof.
  intros H. rewrite main_unfold, load_api_key_with_client.
  change (load_cv_text (load_dotenv (with_client w client)))
    with (load_cv_text (load_dotenv w)).
  destruct H as [-> | [[api_key ->] Hload]]; simpl; [|rewrite Hload];
    split; reflexivity.
Qed.

Lemma load_cv_text_with_fs (w : World) (files : gmap pystr node) (p : Path) :
  files !! path_str p = fs w !! path_str p ->
  load_cv_text (with_fs w files) p = load_cv_text w p.
Proof.
  intros H.
  unfold load_cv_text, exists_, read_text, pdf_try_body, read_bytes, import_PyPDF2.
  simpl fs. simpl PyPDF2. rewrite H. reflexivity.
Qed.


End Main.

(** ** main on a UTF-8 standard output *)

Section MainUtf8.

Variable floatstr : pystr -> pystr.

Lemma print_utf8 (s : pystr) :
  print utf8_encode [] s
  = match utf8_encode s with
    | Some bs => (bs ++ [10], Return tt)
    | None => ([], Raise (LibraryError (py "UnicodeEncodeError")))
    end.
Proof.
  unfold print, write. destruct (utf8_encode s); reflexivity.
Qed.

Lemma utf8_decode_line (s : pystr) (bs : pybytes) :
  utf8_encode s = Some bs -> utf8_decode (bs ++ [10]) = Some (s ++ [10]).
Proof.
  intros H. apply utf8_encode_decode. rewrite utf8_encode_app, H. reflexivity.
Qed.



End MainUtf8.

Lemma main_credentials_first_witness :
  exists_ empty_key_world (mkPath [] [py "bolu.pdf"]) = false
  /\ exit (main no_floatstr utf8_encode empty_key_world)
     = Raise (CVExtractorError
                (py "Missing ANTHROPIC_API_KEY in environment. Set it in your .env file."))
  /\ stdout (main no_floatstr utf8_encode empty_key_world) = [].
Proof.
  split; [reflexivity|].
  apply (main_credentials_first no_floatstr utf8_encode empty_key_world).
  right. reflexivity.
Defined.

Lemma main_fails_without_request_witness :
  exit (main no_floatstr utf8_encode
             (with_client blank_key_world (mock_client python_skills_response)))
  = Raise (CVExtractorError (py "CV file not found: bolu.pdf"))
  /\ stdout (main no_floatstr utf8_encode
                  (with_client blank_key_world
                               (mock_client python_skills_response)))
     = [].
Proof.
  apply (main_fails_without_request no_floatstr utf8_encode blank_key_world).
  right. split; [exists (py " ")|]; reflexivity.
Defined.




(** The spec's end-to-end scenario on a UTF-8 standard output, printed with
    two spaces of indent. *)
Example main_prints_python_skills :
  stdout (main no_floatstr utf8_encode (complete_world python_skills_response))
  = join [10]
      [ py "{";
        py "  " ++ dq "technical_skills" ++ py ": [";
        py "    " ++ dq "Python";
        py "  ],";
        py "  " ++ dq "professional_skills" ++ py ": [],";
        py "  " ++ dq "domain_skills" ++ py ": []";
        py "}";
        [] ].
Proof. vm_compute. reflexivity. Qed.
